(** * python_discord_launcher: a shallow embedding of the updater and launcher

    The development follows the two library modules of the repository,
    [discord_update_lib.py] (versions, archive installation, directory
    removal) and [discord_launcher_lib.py] (update check, update, stop,
    run), and states the properties of the specification over them.

    Conventions of the embedding:
    - Python [str] and [bytes] are [string]; version numbers are [N]
      (the regular expressions only let through runs of digits), and
      the conversions between the two keep CPython's limit of 4300
      digits;
    - a JSON object as the code uses it (string fields looked up by key)
      is a [gmap string string]; a missing key raises [KeyError];
    - effectful functions are computations [M A] over a [World] holding
      the file system and the trace of what the process does to the
      outside (HTTP requests, calls on the bus, signals, sleeps, child
      processes); they end in [Returns], in [Raises] with a Python
      exception, or, for the two unbounded recursions of the source,
      in [OutOfFuel];
    - what the repository takes from other packages (json, tarfile,
      requests, dasbus, desktop_entry_lib, the process table) is a field
      of the record [Platform];
    - [logging] output is not part of the world, but the arguments of
      each logging call are evaluated, since their evaluation can raise. *)

From Stdlib Require Import Ascii String Decimal DecimalString DecimalN.
From stdpp Require Import base option list gmap strings.

(** ** Python exceptions *)

Module Py.

(** The exception classes that the two modules define or can meet. *)
Inductive exn_class :=
  | ParsingVersionError
  | BuildInfoNotFoundInTarError
  | BuildInfoNotFoundError
  | ReleaseChannelMismatchError
  | InstalledVersionSameError
  | InstalledVersionNewerError
  | NoUpdateAvailableError
  | DiscordRunningError
  | DiscordNotRunningError
  | DBusError
  | TimeoutError
  | TypeError
  | KeyError
  | ValueError
  | AssertionError
  | IsADirectoryError
  | NotADirectoryError
  | FileExistsError
  | FileNotFoundError
  | ProcessLookupError
  | OSError
  | LibraryError (name : string).

#[export] Instance exn_class_eq_dec : EqDecision exn_class.
Proof. solve_decision. Defined.

(** A positional argument of a constructor call: a string or a tuple of
    strings. *)
Inductive arg :=
  | AStr (s : string)
  | ATuple (l : list string).

(** An exception object: its class, [args] and [__notes__]. *)
Record exn := mk_exn {
  exn_cls : exn_class;
  exn_args : list arg;
  exn_notes : list string
}.

(** [err.add_note(s)] *)
Definition add_note (s : string) (e : exn) : exn :=
  {| exn_cls := exn_cls e; exn_args := exn_args e;
     exn_notes := exn_notes e ++ [s] |}.

(** The message a class of the repository passes to [super().__init__]:
    each of them defines [__init__(self)] with no further parameter. *)
Definition own_message (c : exn_class) : option string :=
  match c with
  | ParsingVersionError => Some "Failed to parse Discord version"
  | BuildInfoNotFoundInTarError =>
      Some "Failed to find Discord build_info.json in tar file"
  | BuildInfoNotFoundError => Some "Failed to find Discord build_info.json"
  | ReleaseChannelMismatchError => Some "Release channels do not match"
  | InstalledVersionSameError =>
      Some "Attempted to install Discord version which is the same as the one installed"
  | InstalledVersionNewerError =>
      Some "Attempted to install Discord version which is older than the one installed"
  | NoUpdateAvailableError => Some "No update to Discord is available"
  | DiscordRunningError => Some "Discord was already running"
  | DiscordNotRunningError => Some "Discord was not already running"
  | _ => None
  end.

Definition class_name (c : exn_class) : string :=
  match c with
  | ParsingVersionError => "ParsingVersionError"
  | BuildInfoNotFoundInTarError => "BuildInfoNotFoundInTarError"
  | BuildInfoNotFoundError => "BuildInfoNotFoundError"
  | ReleaseChannelMismatchError => "ReleaseChannelMismatchError"
  | InstalledVersionSameError => "InstalledVersionSameError"
  | InstalledVersionNewerError => "InstalledVersionNewerError"
  | NoUpdateAvailableError => "NoUpdateAvailableError"
  | DiscordRunningError => "DiscordRunningError"
  | DiscordNotRunningError => "DiscordNotRunningError"
  | DBusError => "DBusError"
  | TimeoutError => "TimeoutError"
  | TypeError => "TypeError"
  | KeyError => "KeyError"
  | ValueError => "ValueError"
  | AssertionError => "AssertionError"
  | IsADirectoryError => "IsADirectoryError"
  | NotADirectoryError => "NotADirectoryError"
  | FileExistsError => "FileExistsError"
  | FileNotFoundError => "FileNotFoundError"
  | ProcessLookupError => "ProcessLookupError"
  | OSError => "OSError"
  | LibraryError name => name
  end.

(** The result of a call that either gives a value or raises. *)
Inductive result (A : Type) :=
  | Ok (a : A)
  | Err (e : exn).
Arguments Ok {A} a.
Arguments Err {A} e.

#[export] Instance result_ret : MRet result := λ A a, Ok a.

#[export] Instance result_bind : MBind result := λ A B f r,
  match r with Ok a => f a | Err e => Err e end.

(** [C(args)], the call of an exception class.  A built-in class takes
    any arguments.  A class of the repository has [__init__(self)]: with
    no argument it gives the object with its fixed message, with any
    argument the call itself raises [TypeError]. *)
Definition instantiate (c : exn_class) (args : list arg) : result exn :=
  match own_message c with
  | None => Ok (mk_exn c args [])
  | Some msg =>
      match args with
      | [] => Ok (mk_exn c [AStr msg] [])
      | _ :: _ =>
          Err (mk_exn TypeError
                 [AStr (class_name c +:+
                        ".__init__() takes 1 positional argument but " +:+
                        "2 were given")] [])
      end
  end.

End Py.
Export Py.

(** ** Versions ([discord_update_lib], lines 8-11 and 52-108) *)

Definition BUILD_INFO_PATH : string := "resources/build_info.json".
Definition _VERSION_REGEX_RAW : string := "(\d+)\.(\d+)\.(\d+)".
Definition _URL_VERSION_REGEX_RAW : string := "\/(\d+)\.(\d+)\.(\d+)\/".

Inductive Ord := GREATER_THAN | EQUAL_TO | LESS_THAN.

#[export] Instance Ord_eq_dec : EqDecision Ord.
Proof. solve_decision. Defined.

(** [tuple[int, int, int]] *)
Definition Version : Type := N * N * N.

(** [\d], on the ASCII digits; the other decimal digits of Unicode,
    which a [str] pattern also takes, are outside the strings of the
    model. *)
Definition is_digit (c : ascii) : bool :=
  let n := nat_of_ascii c in (48 <=? n)%nat && (n <=? 57)%nat.

(** The longest run of digits at the start of [s], and what follows. *)
Fixpoint span_digits (s : string) : string * string :=
  match s with
  | String c s' =>
      if is_digit c
      then let '(d, rest) := span_digits s' in (String c d, rest)
      else (EmptyString, s)
  | EmptyString => (EmptyString, EmptyString)
  end.

(** The group [(\d+)] at the start of [s]: greedy and not empty. *)
Definition group_digits (s : string) : option (string * string) :=
  match span_digits s with
  | (EmptyString, _) => None
  | (d, rest) => Some (d, rest)
  end.

(** A literal character at the start of [s]. *)
Definition literal (c : ascii) (s : string) : option string :=
  match s with
  | String c' s' => if decide (c = c') then Some s' else None
  | EmptyString => None
  end.

(** [VERSION_REGEX.match(s)], anchored at the start of [s]; the three
    groups and the unmatched rest.  What follows a group in the pattern is
    never a digit, so the greedy run is the only candidate and no shorter
    run has to be tried. *)
Definition VERSION_REGEX_match (s : string)
  : option (string * string * string * string) :=
  '(g1, s1) ← group_digits s;
  s1' ← literal "." s1;
  '(g2, s2) ← group_digits s1';
  s2' ← literal "." s2;
  '(g3, s3) ← group_digits s2';
  Some (g1, g2, g3, s3).

(** One attempt of [URL_VERSION_REGEX] at the start of [s]. *)
Definition URL_VERSION_REGEX_here (s : string)
  : option (string * string * string) :=
  s0 ← literal "/" s;
  '(g1, g2, g3, s3) ← VERSION_REGEX_match s0;
  _ ← literal "/" s3;
  Some (g1, g2, g3).

(** [URL_VERSION_REGEX.search(s)]: the leftmost position that matches. *)
Fixpoint URL_VERSION_REGEX_search (s : string)
  : option (string * string * string) :=
  match URL_VERSION_REGEX_here s with
  | Some g => Some g
  | None =>
      match s with
      | String _ s' => URL_VERSION_REGEX_search s'
      | EmptyString => None
      end
  end.

(** The decimal digits of a non-negative integer, without leading
    zeros. *)
Definition decimal (n : N) : string :=
  NilEmpty.string_of_uint (N.to_uint n).

(** [sys.get_int_max_str_digits()]: CPython, from 3.11 on, refuses to
    convert between [int] and [str] beyond this number of digits, and
    the repository leaves the default in place. *)
Definition int_max_str_digits : nat := 4300.

(** The [ValueError] of [str(n)] beyond the limit. *)
Definition str_limit_error : exn :=
  mk_exn ValueError
    [AStr "Exceeds the limit (4300 digits) for integer string conversion; use sys.set_int_max_str_digits() to increase the limit"]
    [].

(** The [ValueError] of [int(s)] beyond the limit; it tells the number
    of digits of [s]. *)
Definition int_limit_error (count : nat) : exn :=
  mk_exn ValueError
    [AStr ("Exceeds the limit (4300 digits) for integer string conversion: value has "
           +:+ decimal (N.of_nat count)
           +:+ " digits; use sys.set_int_max_str_digits() to increase the limit")]
    [].

(** [str(n)] for a non-negative integer. *)
Definition str (n : N) : result string :=
  let text := decimal n in
  if (int_max_str_digits <? String.length text)%nat
  then Err str_limit_error
  else Ok text.

(** [int(s)] on the strings a group [(\d+)] can hold: every digit of
    [s] counts for the limit, leading zeros too. *)
Definition int (s : string) : result N :=
  match s, NilEmpty.uint_of_string s with
  | String _ _, Some d =>
      if (int_max_str_digits <? String.length s)%nat
      then Err (int_limit_error (String.length s))
      else Ok (N.of_uint d)
  | _, _ =>
      Err (mk_exn ValueError
             [AStr ("invalid literal for int() with base 10: " +:+ s)] [])
  end.

(** [(int(m.group(1)), int(m.group(2)), int(m.group(3)))] *)
Definition int3 (g1 g2 g3 : string) : result Version :=
  a ← int g1; b ← int g2; c ← int g3; mret (a, b, c).

(** A string between double quotes, as the format strings of the notes
    write it. *)
Definition quoted (s : string) : string :=
  String (ascii_of_nat 34) (s +:+ String (ascii_of_nat 34) EmptyString).

Definition new (c : exn_class) : exn := mk_exn c
  match own_message c with Some m => [AStr m] | None => [] end [].

Definition parse_version (version : string) : result Version :=
  match VERSION_REGEX_match version with
  | None =>
      let err := new ParsingVersionError in
      let err := add_note ("Zero matches for regex " +:+ quoted _VERSION_REGEX_RAW
                           +:+ " on string " +:+ quoted version) err in
      Err err
  | Some (g1, g2, g3, _) => int3 g1 g2 g3
  end.

Definition compare_versions (v1 v2 : Version) : Ord :=
  let '(a1, b1, c1) := v1 in
  let '(a2, b2, c2) := v2 in
  if (a2 <? a1)%N then GREATER_THAN
  else if (a1 <? a2)%N then LESS_THAN
  else if (b2 <? b1)%N then GREATER_THAN
  else if (b1 <? b2)%N then LESS_THAN
  else if (c2 <? c1)%N then GREATER_THAN
  else if (c1 <? c2)%N then LESS_THAN
  else EQUAL_TO.

(** [sep.join(l)] *)
Fixpoint join (sep : string) (l : list string) : string :=
  match l with
  | [] => EmptyString
  | [x] => x
  | x :: l' => x +:+ sep +:+ join sep l'
  end.

(** [str(number) for number in version], as [join] consumes it: from
    left to right, up to the first number that [str] refuses. *)
Fixpoint str_each (version : list N) : result (list string) :=
  match version with
  | [] => Ok []
  | number :: version' =>
      text ← str number; texts ← str_each version'; mret (text :: texts)
  end.

(** [".".join(str(number) for number in version)] *)
Definition format_version (version : list N) : result string :=
  texts ← str_each version; mret (join "." texts).

Definition version_list (v : Version) : list N :=
  let '(a, b, c) := v in [a; b; c].

(** What [format_version] writes for a version when it returns. *)
Definition version_text (v : Version) : string :=
  join "." (decimal <$> version_list v).

(** ** The world: file system and observable events *)

(** A path is the list of its components below the root. *)
Definition Path : Type := list string.

Local Set Warnings "-register-all".

(** The file system is a tree; a directory maps names to nodes.  Links,
    owners and modes are not modelled. *)
Inductive node :=
  | File (data : string)
  | Dir (entries : gmap string node).

(** What the process does to the outside, in the order it does it. *)
Inductive event :=
  | EHttpGet (url : string) (allow_redirects : bool)
  | EBusCall (method : string)
  | EKill (pid : Z) (sig : Z)
  | ESleep
  | EPopen (argv : list string) (cwd : string)
  | EWait (pid : Z)
  | EServiceStart
  | EServicePublish (pid : Z)
  | EServiceTerminate.

Record World := mk_World {
  fs : node;
  trace : list event
}.

Definition with_fs (n : node) (w : World) : World :=
  {| fs := n; trace := trace w |}.

Definition emit (e : event) (w : World) : World :=
  {| fs := fs w; trace := trace w ++ [e] |}.

(** ** Computations *)

Inductive outcome (A : Type) :=
  | Returns (a : A)
  | Raises (e : exn)
  | OutOfFuel.
Arguments Returns {A} a.
Arguments Raises {A} e.
Arguments OutOfFuel {A}.

Definition M (A : Type) : Type := World -> outcome A * World.

#[export] Instance M_ret : MRet M := λ A a w, (Returns a, w).

#[export] Instance M_bind : MBind M := λ A B f m w,
  match m w with
  | (Returns a, w') => f a w'
  | (Raises e, w') => (Raises e, w')
  | (OutOfFuel, w') => (OutOfFuel, w')
  end.

(** [raise e] *)
Definition raise {A} (e : exn) : M A := λ w, (Raises e, w).

(** A call outside the world that gives a value or raises. *)
Definition lift {A} (r : result A) : M A :=
  match r with Ok a => mret a | Err e => raise e end.

(** [try: body except C as err: handler err]: [handles e] says whether
    the clause catches [e]. *)
Definition try_except {A} (body : M A) (handles : exn -> bool)
    (handler : exn -> M A) : M A := λ w,
  match body w with
  | (Raises e, w') => if handles e then handler e w' else (Raises e, w')
  | r => r
  end.

Definition is_a (c : exn_class) (e : exn) : bool :=
  bool_decide (exn_cls e = c).

Definition out_of_fuel {A} : M A := λ w, (OutOfFuel, w).

Definition get_world : M World := λ w, (Returns w, w).
Definition log_event (e : event) : M unit := λ w, (Returns tt, emit e w).
Definition set_fs (n : node) : M unit := λ w, (Returns tt, with_fs n w).

(** [for x in l: body x] *)
Fixpoint for_each {A} (l : list A) (body : A -> M unit) : M unit :=
  match l with
  | [] => mret tt
  | x :: l' => body x;; for_each l' body
  end.

(** [d[key]] on a dict. *)
Definition getitem (d : gmap string string) (key : string) : result string :=
  match d !! key with
  | Some v => Ok v
  | None => Err (mk_exn KeyError [AStr key] [])
  end.

(** ** pathlib on the tree *)

Fixpoint resolve (p : Path) (n : node) : option node :=
  match p with
  | [] => Some n
  | c :: p' =>
      match n with
      | Dir es => es !! c ≫= resolve p'
      | File _ => None
      end
  end.

(** The tree with the node at [p] replaced by [v], or taken out when [v]
    is [None]; nothing changes when the parent of [p] is no directory. *)
Fixpoint put (p : Path) (v : option node) (n : node) : node :=
  match p with
  | [] => default n v
  | c :: p' =>
      match n with
      | Dir es =>
          match p' with
          | [] => Dir (partial_alter (λ _, v) c es)
          | _ :: _ =>
              match es !! c with
              | Some child => Dir (<[c := put p' v child]> es)
              | None => n
              end
          end
      | File _ => n
      end
  end.

Definition path_exists (p : Path) (n : node) : bool :=
  bool_decide (is_Some (resolve p n)).

Definition path_is_dir (p : Path) (n : node) : bool :=
  match resolve p n with Some (Dir _) => true | _ => false end.

Definition path_is_file (p : Path) (n : node) : bool :=
  match resolve p n with Some (File _) => true | _ => false end.

(** [str(path)] *)
Definition path_str (p : Path) : string :=
  "/" +:+ join "/" p.

(** The components of a relative path written with slashes. *)
Fixpoint split_slash (acc : string) (s : string) : list string :=
  match s with
  | EmptyString => if decide (acc = EmptyString) then [] else [acc]
  | String c s' =>
      if decide (c = "/"%char)
      then (if decide (acc = EmptyString) then [] else [acc])
             ++ split_slash EmptyString s'
      else split_slash (acc +:+ String c EmptyString) s'
  end.

(** [path.joinpath(rel)] *)
Definition joinpath (p : Path) (rel : string) : Path :=
  p ++ split_slash EmptyString rel.

Definition os_error (c : exn_class) (p : Path) : exn :=
  mk_exn c [AStr (path_str p)] [].

(** [path.exists()], [path.is_dir()], [path.is_file()] *)
Definition Path_exists (p : Path) : M bool := λ w, (Returns (path_exists p (fs w)), w).
Definition Path_is_dir (p : Path) : M bool := λ w, (Returns (path_is_dir p (fs w)), w).
Definition Path_is_file (p : Path) : M bool := λ w, (Returns (path_is_file p (fs w)), w).

(** [path.read_bytes()] *)
Definition Path_read_bytes (p : Path) : M string := λ w,
  match resolve p (fs w) with
  | Some (File data) => (Returns data, w)
  | Some (Dir _) => (Raises (os_error IsADirectoryError p), w)
  | None => (Raises (os_error FileNotFoundError p), w)
  end.

(** [path.iterdir()]: the children of a directory. *)
Definition Path_iterdir (p : Path) : M (list Path) := λ w,
  match resolve p (fs w) with
  | Some (Dir es) => (Returns ((λ c, p ++ [c]) <$> (map_to_list es).*1), w)
  | Some (File _) => (Raises (os_error NotADirectoryError p), w)
  | None => (Raises (os_error FileNotFoundError p), w)
  end.

(** [path.unlink()] *)
Definition Path_unlink (p : Path) : M unit := λ w,
  match resolve p (fs w) with
  | Some (File _) => (Returns tt, with_fs (put p None (fs w)) w)
  | Some (Dir _) => (Raises (os_error IsADirectoryError p), w)
  | None => (Raises (os_error FileNotFoundError p), w)
  end.

(** [path.rmdir()]: only an empty directory goes. *)
Definition Path_rmdir (p : Path) : M unit := λ w,
  match resolve p (fs w) with
  | Some (Dir es) =>
      if decide (es = ∅)
      then (Returns tt, with_fs (put p None (fs w)) w)
      else (Raises (os_error OSError p), w)
  | Some (File _) => (Raises (os_error NotADirectoryError p), w)
  | None => (Raises (os_error FileNotFoundError p), w)
  end.

(** The parent of a path; the root is its own parent. *)
Definition parent (p : Path) : Path := removelast p.

(** [path.mkdir(parents=False)] *)
Definition Path_mkdir (p : Path) : M unit := λ w,
  if path_exists p (fs w) then (Raises (os_error FileExistsError p), w)
  else match resolve (parent p) (fs w) with
       | Some (Dir _) => (Returns tt, with_fs (put p (Some (Dir ∅)) (fs w)) w)
       | Some (File _) => (Raises (os_error NotADirectoryError p), w)
       | None => (Raises (os_error FileNotFoundError p), w)
       end.

(** ** What the repository takes from other packages *)

(** A member of an opened archive ([tarfile.TarInfo]): [path] is an alias
    of [name]; [data] is what [extractfile] reads from a regular file. *)
Record TarInfo := mk_TarInfo {
  name : string;
  isreg : bool;
  data : string
}.

(** The answer to an HTTP request. *)
Record Response := mk_Response {
  headers : gmap string string;
  content : string
}.

(** The launcher's configuration, read by the caller from its file. *)
Record Config := mk_Config {
  discord_path : Path;
  release_channel : string;
  launch_args : list string;
  working_directory : string
}.

Record Platform := mk_Platform {
  (** [json.loads] on the bytes of a build-info file *)
  json_loads : string -> result (gmap string string);
  (** [tarfile.open(fileobj=...)] followed by [getmembers()] *)
  tarfile_open : string -> result (list TarInfo);
  (** [tar_object.extractall(path, members, filter="data")]: the tree it
      leaves, and the exception if it stops early *)
  tarfile_extractall : Path -> list TarInfo -> node -> result unit * node;
  (** [requests.get(url, allow_redirects=...)] *)
  requests_get : string -> bool -> World -> result Response;
  (** the methods of the D-Bus proxy of a running launcher *)
  proxy_PID : World -> result Z;
  proxy_Stop : World -> result unit;
  proxy_Ping : World -> result unit;
  (** [os.kill(pid, sig)] *)
  os_kill : Z -> Z -> World -> result unit;
  (** [subprocess.Popen(argv, cwd=...)]: the pid of the child *)
  subprocess_Popen : list string -> string -> World -> result Z;
  (** what the D-Bus service process sends back through the pipe after
      registering the name, and after publishing the object *)
  service_registered : World -> option exn;
  service_published : Z -> World -> option exn;
  (** [create_desktop_entry(config, force)], which rests on
      [desktop_entry_lib]: the tree it leaves *)
  desktop_entry : Config -> bool -> World -> result unit * node
}.

(** ** [discord_update_lib] *)

Module discord_update_lib.
Section with_platform.

Variable P : Platform.

Definition DOWNLOAD_URL : string := "https://discord.com/api/download".
Definition DOWNLOAD_PARAMS : string := "platform=linux&format=tar.gz".

(** [requests.get], with the request recorded in the trace. *)
Definition http_get (url : string) (allow_redirects : bool) : M Response :=
  w ← get_world;
  log_event (EHttpGet url allow_redirects);;
  lift (requests_get P url allow_redirects w).

Definition download_url (channel : string) : string :=
  if bool_decide (channel ≠ EmptyString) && bool_decide (channel ≠ "stable")
  then DOWNLOAD_URL +:+ "/" +:+ channel +:+ "?" +:+ DOWNLOAD_PARAMS
  else DOWNLOAD_URL +:+ "?" +:+ DOWNLOAD_PARAMS.

Definition get_download_location (channel : string) : M string :=
  let url := download_url channel in
  response ← http_get url false;
  lift (getitem (headers response) "Location").

Definition get_latest_discord_version (channel : string) : M Version :=
  location ← get_download_location channel;
  match URL_VERSION_REGEX_search location with
  | None =>
      let err := new ParsingVersionError in
      let err := add_note ("Zero matches for regex "
                           +:+ quoted _URL_VERSION_REGEX_RAW) err in
      let err := add_note "This might be a bug!" err in
      raise err
  | Some (g1, g2, g3) => lift (int3 g1 g2 g3)
  end.

Definition download_discord (channel : string) : M string :=
  download_location ← get_download_location channel;
  response ← http_get download_location true;
  mret (content response).

Definition get_installed_build_info (path : Path) : M (gmap string string) :=
  let installed_build_info_path := joinpath path BUILD_INFO_PATH in
  ex ← Path_exists installed_build_info_path;
  if negb ex then
    let err := new BuildInfoNotFoundError in
    let err := add_note ("Expected path: "
                         +:+ path_str installed_build_info_path) err in
    raise err
  else
    isf ← Path_is_file installed_build_info_path;
    if negb isf then
      raise (os_error IsADirectoryError installed_build_info_path)
    else
      bytes ← Path_read_bytes installed_build_info_path;
      lift (json_loads P bytes).

(** [remove_directory], lines 247-259.  The recursion goes down the
    tree under [path]; [fuel] bounds the depth that the model follows. *)
Fixpoint remove_directory (fuel : nat) (path : Path) : M unit :=
  is_dir ← Path_is_dir path;
  if (is_dir : bool) then
    match fuel with
    | O => out_of_fuel
    | S fuel' =>
        items ← Path_iterdir path;
        for_each items (λ item,
          item_is_dir ← Path_is_dir item;
          if (item_is_dir : bool) then remove_directory fuel' item
          else Path_unlink item);;
        Path_rmdir path
    end
  else mret tt.

(** *** The scan of the archive, lines 142-152

    The members are objects: the loop renames a member in place, and
    [root_members] and [build_info] hold references to members, here
    their positions in the store. *)

Record scan := mk_scan {
  members : list TarInfo;
  root_members : list nat;
  build_info : option nat
}.

Definition root_names : list string :=
  ["Discord/"; "DiscordPTB/"; "DiscordCanary/"].

(** [s.removeprefix(pre)] *)
Definition removeprefix (pre s : string) : string :=
  if String.prefix pre s
  then String.substring (String.length pre)
         (String.length s - String.length pre) s
  else s.

Definition rename (n : string) (item : TarInfo) : TarInfo :=
  {| name := n; isreg := isreg item; data := data item |}.

(** The body of the inner loop for the member at position [i]. *)
Definition scan_root (i : nat) (st : scan) (root_name : string) : scan :=
  match members st !! i with
  | None => st
  | Some item =>
      let st1 :=
        if bool_decide (name item = root_name +:+ BUILD_INFO_PATH)
        then mk_scan (members st) (root_members st) (Some i)
        else st in
      if String.prefix root_name (name item)
      then mk_scan
             (<[i := rename (removeprefix root_name (name item)) item]>
                (members st1))
             (root_members st1 ++ [i])
             (build_info st1)
      else st1
  end.

Definition scan_item (st : scan) (i : nat) : scan :=
  foldl (scan_root i) st root_names.

Definition scan_members (ms : list TarInfo) : scan :=
  foldl scan_item (mk_scan ms [] None) (seq 0 (length ms)).

(** The objects a list of references stands for. *)
Definition deref (st : scan) (refs : list nat) : list TarInfo :=
  omap (λ i, members st !! i) refs.

(** [tar_object.extractfile(member)] with [assert file is not None] and
    [file.read()]: [extractfile] gives [None] for a member that is no
    regular file. *)
Definition extractfile_read (st : scan) (i : nat) : result string :=
  match members st !! i with
  | Some item =>
      if isreg item then Ok (data item)
      else Err (mk_exn AssertionError [] [])
  | None => Err (mk_exn AssertionError [] [])
  end.

Definition extractall (path : Path) (ms : list TarInfo) : M unit := λ w,
  match tarfile_extractall P path ms (fs w) with
  | (Ok _, n) => (Returns tt, with_fs n w)
  | (Err e, n) => (Raises e, with_fs n w)
  end.

(** *** [install_discord], lines 130-218 *)

(** Lines 138-152: the archive is opened and its members scanned. *)
Definition read_archive (tar : string) : M scan :=
  tar_members ← lift (tarfile_open P tar);
  mret (scan_members tar_members).

(** Lines 154-166: the build info of the archive. *)
Definition archive_build_info (st : scan) (force strict_channel : bool)
  : M (gmap string string) :=
  match build_info st with
  | Some i =>
      bytes ← lift (extractfile_read st i);
      json ← lift (json_loads P bytes);
      (* the arguments of the call of logging.info *)
      _ ← lift (getitem json "version");
      _ ← lift (getitem json "releaseChannel");
      mret json
  | None =>
      if strict_channel || negb force then
        (* the exception is built and annotated; no [raise] follows *)
        let err := new BuildInfoNotFoundInTarError in
        let err := add_note ("Expected path in tar: "
                             +:+ BUILD_INFO_PATH) err in
        mret ∅
      else mret ∅
  end.

(** Lines 169-198, the body of the [try]. *)
Definition check_against_installed (path : Path)
    (build_info_json : gmap string string) (force strict_channel : bool)
  : M unit :=
  installed_build_info_json ← get_installed_build_info path;
  (* the arguments of the call of logging.info *)
  _ ← lift (getitem installed_build_info_json "version");
  _ ← lift (getitem installed_build_info_json "releaseChannel");
  tar_channel ← lift (getitem build_info_json "releaseChannel");
  installed_channel ← lift (getitem installed_build_info_json "releaseChannel");
  if bool_decide (tar_channel ≠ installed_channel) then
    if strict_channel then
      let err := new ReleaseChannelMismatchError in
      let err := add_note ("Tar is channel " +:+ quoted tar_channel
                           +:+ " while installed is channel "
                           +:+ quoted installed_channel) err in
      raise err
    else mret tt
  else
    tar_text ← lift (getitem build_info_json "version");
    tar_version ← lift (parse_version tar_text);
    installed_text ← lift (getitem installed_build_info_json "version");
    installed_version ← lift (parse_version installed_text);
    let build_compare := compare_versions tar_version installed_version in
    let note := "Installed is version " +:+ installed_text
                +:+ " and requested is version " +:+ tar_text in
    if bool_decide (build_compare = LESS_THAN) then
      if negb force then raise (add_note note (new InstalledVersionNewerError))
      else mret tt
    else if bool_decide (build_compare = EQUAL_TO) then
      if negb force then raise (add_note note (new InstalledVersionSameError))
      else mret tt
    else mret tt.

(** Lines 154-203: all the checks. *)
Definition validate (path : Path) (st : scan) (force strict_channel : bool)
  : M unit :=
  build_info_json ← archive_build_info st force strict_channel;
  try_except
    (check_against_installed path build_info_json force strict_channel)
    (is_a BuildInfoNotFoundError)
    (λ err, if strict_channel || negb force then raise err else mret tt).

(** Lines 211-218: the old installation goes and the archive is
    extracted in its place. *)
Definition replace_installation (fuel : nat) (path : Path) (st : scan)
  : M unit :=
  ex ← Path_exists path;
  (if (ex : bool) then remove_directory fuel path else mret tt);;
  Path_mkdir path;;
  extractall path (deref st (root_members st)).

Definition install_discord (fuel : nat) (path : Path) (tar : string)
    (force strict_channel : bool) : M unit :=
  st ← read_archive tar;
  validate path st force strict_channel;;
  replace_installation fuel path st.

(** *** [check_for_updates], lines 220-233 *)

Definition check_for_updates (path : Path) : M (Ord * Version * Version) :=
  installed_build_info_json ← get_installed_build_info path;
  installed_channel ← lift (getitem installed_build_info_json "releaseChannel");
  let channel :=
    if bool_decide (installed_channel = "canary")
       || bool_decide (installed_channel = "ptb")
    then installed_channel else "stable" in
  current ← lift (getitem installed_build_info_json "version" ≫= parse_version);
  latest ← get_latest_discord_version channel;
  mret (compare_versions current latest, current, latest).

Definition download_and_install_discord (fuel : nat) (path : Path)
    (channel : string) (force strict_channel : bool) : M unit :=
  tar ← download_discord channel;
  install_discord fuel path tar force strict_channel.

End with_platform.
End discord_update_lib.

(** The table [desktop_entry] of the launcher's configuration. *)
Record DesktopEntryConfig := mk_DesktopEntryConfig {
  entry_enabled : bool;
  entry_path : Path;
  entry_tryexec : bool;
  entry_setup_action : bool
}.

(** ** [discord_launcher_lib] *)

Module discord_launcher_lib.
Section with_platform.

Variable P : Platform.

Definition SERVICE_NAME : string := "xyz.strangejune.DiscordLauncher".
Definition SIGTERM : Z := 15.

Definition get_installed_build_info (config : Config)
  : M (gmap string string) :=
  discord_update_lib.get_installed_build_info P (discord_path config).

Definition create_desktop_entry (config : Config) (force : bool) : M unit :=
  λ w,
  match desktop_entry P config force w with
  | (Ok _, n) => (Returns tt, with_fs n w)
  | (Err e, n) => (Raises e, with_fs n w)
  end.

(** *** [check_for_updates], lines 174-182 *)

Definition check_for_updates (config : Config)
  : M (Ord * Version * Version) :=
  build_info ← get_installed_build_info config;
  installed_channel ← lift (getitem build_info "releaseChannel");
  if bool_decide (release_channel config ≠ installed_channel) then
    err ← lift (instantiate ReleaseChannelMismatchError
                  [ATuple [release_channel config; installed_channel]]);
    raise err
  else discord_update_lib.check_for_updates P (discord_path config).

(** *** [stop_discord], lines 276-312 *)

(** A call of a method of the proxy. *)
Definition proxy_call {A} (method : string) (f : World -> result A) : M A :=
  w ← get_world;
  log_event (EBusCall method);;
  lift (f w).

Definition kill (pid sig : Z) : M unit :=
  w ← get_world;
  log_event (EKill pid sig);;
  lift (os_kill P pid sig w).

(** [time.sleep(0.05)] *)
Definition sleep : M unit := log_event ESleep.

(** Lines 299-304, [while True: try: os.kill(pid, 0); time.sleep(0.05)
    except: break].  The source puts no bound on the loop; [fuel] is the
    number of rounds the model follows. *)
Fixpoint wait_while_alive (fuel : nat) (pid : Z) : M unit :=
  match fuel with
  | O => out_of_fuel
  | S fuel' =>
      again ← try_except (kill pid 0;; sleep;; mret true)
                (λ _, true) (λ _, mret false);
      if (again : bool) then wait_while_alive fuel' pid else mret tt
  end.

Definition stop_discord (fuel : nat) (blocking : bool) : M unit :=
  try_except
    (pid ← proxy_call "PID" (proxy_PID P);
     proxy_call "Stop" (proxy_Stop P);;
     if blocking then wait_while_alive fuel pid else mret tt)
    (is_a DBusError)
    (λ _, raise (add_note ("Error connecting to " +:+ SERVICE_NAME)
                   (new DiscordNotRunningError))).

(** [try: stop_discord() except DiscordNotRunningError: pass] *)
Definition stop_if_running (fuel : nat) : M unit :=
  try_except (stop_discord fuel true) (is_a DiscordNotRunningError)
    (λ _, mret tt).

(** *** [update_discord], lines 184-223 *)

Definition none_subscript : exn :=
  mk_exn TypeError [AStr "'NoneType' object is not subscriptable"] [].

(** [update_info[1]] and [update_info[2]], where [update_info] may be
    [None]. *)
Definition item1 (update_info : option (Ord * Version * Version))
  : result Version :=
  match update_info with
  | Some (_, current, _) => Ok current
  | None => Err none_subscript
  end.

Definition item2 (update_info : option (Ord * Version * Version))
  : result Version :=
  match update_info with
  | Some (_, _, latest) => Ok latest
  | None => Err none_subscript
  end.

(** The two format strings of the notes, lines 195 and 199. *)
Definition no_update_format (latest : string) : string :=
  "Latest available version is " +:+ latest +:+ ", which is installed".

Definition newer_format (current latest : string) : string :=
  "Installed version is " +:+ current
  +:+ ", latest available is " +:+ latest.

(** The notes for versions that [format_version] can write. *)
Definition no_update_note (latest : Version) : string :=
  no_update_format (version_text latest).

Definition newer_note (current latest : Version) : string :=
  newer_format (version_text current) (version_text latest).

(** Lines 190-208: the [try] around the check and its [except] clause,
    given the computation that performs the check. *)
Definition classify (check : M (Ord * Version * Version))
    (strict_channel : bool) : M (option (Ord * Version * Version)) :=
  try_except
    (update_info ← check;
     match update_info with
     | (EQUAL_TO, _, latest) =>
         let err := new NoUpdateAvailableError in
         latest_text ← lift (format_version (version_list latest));
         raise (add_note (no_update_format latest_text) err)
     | (GREATER_THAN, current, latest) =>
         let err :=
           mk_exn ValueError
             [AStr "Installed Discord version is newer than latest available Discord version!"]
             [] in
         current_text ← lift (format_version (version_list current));
         latest_text ← lift (format_version (version_list latest));
         raise (add_note (newer_format current_text latest_text) err)
     | (LESS_THAN, _, _) => mret (Some update_info)
     end)
    (is_a ReleaseChannelMismatchError)
    (λ err, if strict_channel then raise err else mret None).

(** Lines 211-223, what follows the [try]. *)
Definition apply_update (fuel : nat) (config : Config)
    (strict_channel : bool)
    (update_info : option (Ord * Version * Version)) : M Version :=
  build_info ← get_installed_build_info config;
  (* the arguments of the first call of logging.info *)
  current ← lift (item1 update_info);
  _ ← lift (format_version (version_list current));
  _ ← lift (getitem build_info "releaseChannel");
  (if bool_decide (is_Some update_info) then
     latest ← lift (item2 update_info);
     _ ← lift (format_version (version_list latest));
     _ ← lift (getitem build_info "releaseChannel");
     mret tt
   else mret tt);;
  stop_if_running fuel;;
  discord_update_lib.download_and_install_discord P fuel
    (discord_path config) (release_channel config) false strict_channel;;
  create_desktop_entry config false;;
  lift (item2 update_info).

Definition update_discord (fuel : nat) (config : Config)
    (strict_channel : bool) : M Version :=
  update_info ← classify (check_for_updates config) strict_channel;
  apply_update fuel config strict_channel update_info.

(** *** [run_discord], lines 238-274 and 314-361 *)

Definition get_discord_binary (config : Config) : Path :=
  let bin_name :=
    if bool_decide (release_channel config = "ptb") then "DiscordPTB"
    else if bool_decide (release_channel config = "canary") then "DiscordCanary"
    else "Discord" in
  discord_path config ++ [bin_name].

Definition is_discord_running : M bool :=
  try_except (proxy_call "Ping" (proxy_Ping P);; mret true)
    (λ e, is_a TimeoutError e || is_a DBusError e)
    (λ _, mret false).

Definition popen (argv : list string) (cwd : string) : M Z :=
  w ← get_world;
  log_event (EPopen argv cwd);;
  lift (subprocess_Popen P argv cwd w).

Definition run_discord (config : Config) (args : list string) : M unit :=
  running ← is_discord_running;
  if (running : bool) then raise (new DiscordRunningError)
  else
    let args := match args with [] => launch_args config | _ => args end in
    let bin := get_discord_binary config in
    build_info ← get_installed_build_info config;
    _ ← lift (getitem build_info "version" ≫= parse_version);
    _ ← lift (getitem build_info "releaseChannel");
    w ← get_world;
    log_event EServiceStart;;
    match service_registered P w with
    | Some response => raise response
    | None =>
        pid ← popen (path_str bin :: args) (working_directory config);
        w ← get_world;
        log_event (EServicePublish pid);;
        match service_published P pid w with
        | Some response => kill pid SIGTERM;; raise response
        | None => log_event (EWait pid);; log_event EServiceTerminate
        end
    end.

(** *** [update_and_run_discord], lines 399-408 *)

Definition update_and_run_discord (fuel : nat) (config : Config)
    (args : list string) (strict_channel : bool) : M unit :=
  update_discord fuel config strict_channel;;
  run_discord config args.

(** *** [get_sample_desktop_entry_path], lines 56-64 *)

Definition get_sample_desktop_entry_path (path : Path) : M Path :=
  build_info ← discord_update_lib.get_installed_build_info P path;
  channel ← lift (getitem build_info "releaseChannel");
  if bool_decide (channel = "canary") || bool_decide (channel = "ptb")
  then mret (path ++ ["discord-" +:+ channel +:+ ".desktop"])
  else mret (path ++ ["discord.desktop"]).

(** *** [install_discord_from_tar] and [install_discord], lines 102-115
    and 225-236 *)

Definition install_discord_from_tar (fuel : nat) (config : Config)
    (tar : string) (force_desktop_entry : bool) : M unit :=
  stop_if_running fuel;;
  discord_update_lib.install_discord P fuel (discord_path config) tar
    true false;;
  create_desktop_entry config force_desktop_entry.

Definition install_discord (fuel : nat) (config : Config) : M unit :=
  stop_if_running fuel;;
  discord_update_lib.download_and_install_discord P fuel
    (discord_path config) (release_channel config) true false;;
  create_desktop_entry config false.

(** *** [uninstall_discord_desktop_file] and [uninstall_discord], lines
    117-172 *)

Definition missing_entry (desktop_entry_path : Path) : exn :=
  mk_exn FileNotFoundError
    [AStr ("Desktop entry did not already exist at "
           +:+ quoted (path_str desktop_entry_path))] [].



Definition uninstall_discord_desktop_file (desktop : DesktopEntryConfig)
  : M unit :=
  let desktop_entry_path := entry_path desktop in
  ex ← Path_exists desktop_entry_path;
  if negb ex then raise (missing_entry desktop_entry_path)
  else Path_unlink desktop_entry_path.


End with_platform.
End discord_launcher_lib.

(** ** A small platform for closed examples *)

Module Demo.

(** The text of a build-info file. *)
Definition build_info_doc (v c : string) : string :=
  "{" +:+ quoted "version" +:+ ": " +:+ quoted v +:+ ", "
  +:+ quoted "releaseChannel" +:+ ": " +:+ quoted c +:+ "}".

Definition known_docs : list (string * string) :=
  [("1.2.3", "stable"); ("1.2.4", "stable"); ("1.3.0", "stable");
   ("1.2.3", "canary"); ("1.2.4", "canary"); ("1.2.4", "ptb")].

Definition decode_error : exn :=
  mk_exn (LibraryError "JSONDecodeError") [] [].

Definition loads (s : string) : result (gmap string string) :=
  match find (λ '(v, c), bool_decide (build_info_doc v c = s)) known_docs with
  | Some (v, c) => Ok {[ "version" := v; "releaseChannel" := c ]}
  | None => Err decode_error
  end.

(** An archive of the given root with a binary and a build-info file. *)
Definition archive_members (root v c : string) : list TarInfo :=
  [ mk_TarInfo (root +:+ "Discord") true "ELF";
    mk_TarInfo (root +:+ "resources") false EmptyString;
    mk_TarInfo (root +:+ BUILD_INFO_PATH) true (build_info_doc v c) ].

(** The same without the build-info file. *)
Definition bare_members (root : string) : list TarInfo :=
  [ mk_TarInfo (root +:+ "Discord") true "ELF" ].

Definition read_error : exn := mk_exn (LibraryError "ReadError") [] [].

Definition open_tar (tar : string) : result (list TarInfo) :=
  if bool_decide (tar = "stable-1.2.4.tar.gz")
  then Ok (archive_members "Discord/" "1.2.4" "stable")
  else if bool_decide (tar = "stable-1.2.3.tar.gz")
  then Ok (archive_members "Discord/" "1.2.3" "stable")
  else if bool_decide (tar = "canary-1.2.4.tar.gz")
  then Ok (archive_members "DiscordCanary/" "1.2.4" "canary")
  else if bool_decide (tar = "bare.tar.gz")
  then Ok (bare_members "Discord/")
  else Err read_error.

(** [mkdir -p] of [p] in the tree. *)
Fixpoint make_dirs (p : Path) (n : node) : node :=
  match p with
  | [] => n
  | c :: p' =>
      match n with
      | Dir es =>
          Dir (<[c := make_dirs p' (default (Dir ∅) (es !! c))]> es)
      | File _ => n
      end
  end.

Definition extract_member (path : Path) (n : node) (m : TarInfo) : node :=
  let target := joinpath path (name m) in
  if isreg m
  then put target (Some (File (data m))) (make_dirs (parent target) n)
  else make_dirs target n.

Definition extract_all (path : Path) (ms : list TarInfo) (n : node)
  : result unit * node :=
  (Ok tt, foldl (extract_member path) n ms).

Definition location (v : string) : string :=
  "https://stable.dl2.discordapp.net/apps/linux/" +:+ v
  +:+ "/discord-" +:+ v +:+ ".tar.gz".

Definition connection_error : exn :=
  mk_exn (LibraryError "ConnectionError") [] [].

(** The server publishes version [v] of every channel. *)
Definition get (v : string) (url : string) (allow_redirects : bool)
    (w : World) : result Response :=
  if bool_decide (url = discord_update_lib.download_url "stable")
  then Ok (mk_Response {[ "Location" := location v ]} EmptyString)
  else if bool_decide (url = discord_update_lib.download_url "canary")
  then Ok (mk_Response {[ "Location" := location v ]} EmptyString)
  else if bool_decide (url = location v)
  then Ok (mk_Response ∅ ("stable-" +:+ v +:+ ".tar.gz"))
  else Err connection_error.

Definition no_service {A} : result A := Err (mk_exn DBusError [] []).

#[export] Instance event_eq_dec : EqDecision event.
Proof. solve_decision. Defined.

(** The number of [time.sleep] in a trace. *)
Definition sleeps (w : World) : nat :=
  length (filter (λ e, e = ESleep) (trace w)).

(** The signal probe of a process that is there during [lifetime]
    sleeps of the caller, or for ever. *)
Definition probe (lifetime : option nat) (w : World) : result unit :=
  match lifetime with
  | Some n =>
      if decide (sleeps w < n) then Ok tt
      else Err (mk_exn ProcessLookupError [] [])
  | None => Ok tt
  end.

(** A platform whose server publishes [v] and where the launcher
    [running], if any, answers on the bus; its client lives for
    [lifetime]. *)
Definition platform (v : string) (running : option Z)
    (lifetime : option nat) : Platform := {|
  json_loads := loads;
  tarfile_open := open_tar;
  tarfile_extractall := extract_all;
  requests_get := get v;
  proxy_PID := λ _, from_option Ok no_service running;
  proxy_Stop := λ _, from_option (λ _, Ok tt) no_service running;
  proxy_Ping := λ _, from_option (λ _, Ok tt) no_service running;
  os_kill := λ _ _, probe lifetime;
  subprocess_Popen := λ _ _ _, Ok 1000%Z;
  service_registered := λ _, None;
  service_published := λ _ _, None;
  desktop_entry := λ _ _ w, (Ok tt, fs w)
|}.

(** No launcher is running. *)
Definition idle (v : string) : Platform := platform v None None.

Definition home : Path := ["home"; "june"].
Definition destination : Path := home ++ ["Discord"].

(** An installation of version [v] of channel [c]. *)
Definition installation (v c : string) : node :=
  Dir {[ "Discord" := File "ELF";
         "resources" := Dir {[ "build_info.json" := File (build_info_doc v c) ]} ]}.

Definition tree (entries : gmap string node) : node :=
  Dir {[ "home" := Dir {[ "june" := Dir entries ]} ]}.

Definition installed (v c : string) : World :=
  mk_World (tree {[ "Discord" := installation v c ]}) [].

Definition fresh : World := mk_World (tree ∅) [].

Definition config (c : string) : Config :=
  mk_Config destination c [] "/usr/bin".

End Demo.

(** * Vocabulary of the properties *)

Fixpoint digits_only (s : string) : bool :=
  match s with
  | String c s' => is_digit c && digits_only s'
  | EmptyString => true
  end.

Definition no_leading_digit (s : string) : bool :=
  match s with
  | String c _ => negb (is_digit c)
  | EmptyString => true
  end.

(** The lexicographic order of versions. *)
Definition Version_lt (v1 v2 : Version) : Prop :=
  let '(a1, b1, c1) := v1 in
  let '(a2, b2, c2) := v2 in
  (a1 < a2 ∨ (a1 = a2 ∧ (b1 < b2 ∨ (b1 = b2 ∧ c1 < c2))))%N.


(** The number of decimal digits of [n]. *)
Definition digit_count (n : N) : nat := String.length (decimal n).

(** The numbers that [int] reads and [str] writes: those of at most
    [int_max_str_digits] digits. *)
Definition within_limit (n : N) : Prop :=
  (digit_count n ≤ int_max_str_digits)%nat.

(** A version whose three numbers are within the limit. *)
Definition Version_within (v : Version) : Prop :=
  let '(a, b, c) := v in within_limit a ∧ within_limit b ∧ within_limit c.

(** The smallest number beyond the limit: a one and 4300 zeros. *)
Definition beyond_limit : N := 10 ^ 4300.

(** The call of [ReleaseChannelMismatchError] with the pair of channels
    raises [TypeError]: the class takes no argument. *)
Definition mismatch_call_error : exn :=
  mk_exn TypeError
    [AStr "ReleaseChannelMismatchError.__init__() takes 1 positional argument but 2 were given"]
    [].

(** A computation that only reads: it ends, and leaves the world as it
    found it. *)
Definition read_only {A} (m : M A) : Prop :=
  ∀ w, (∃ a, m w = (Returns a, w)) ∨ (∃ e, m w = (Raises e, w)).



(** The world after [k] rounds of the loop of [stop_discord] on [pid]:
    each round probes the process and sleeps. *)
Fixpoint after_rounds (pid : Z) (k : nat) (w : World) : World :=
  match k with
  | O => w
  | S k' => after_rounds pid k' (emit ESleep (emit (EKill pid 0) w))
  end.

Section vocabulary.

Variable P : Platform.

(** What an archive says about itself: nothing, or a build info. *)
Definition archive_metadata (tar : string)
    (info : option (gmap string string)) : Prop :=
  ∃ tar_members, tarfile_open P tar = Ok tar_members ∧
    let st := discord_update_lib.scan_members tar_members in
    match discord_update_lib.build_info st with
    | None => info = None
    | Some i =>
        ∃ bytes json,
          discord_update_lib.extractfile_read st i = Ok bytes ∧
          json_loads P bytes = Ok json ∧ info = Some json
    end.

(** The build info that the installation at [path] holds. *)
Definition installed_metadata (path : Path) (w : World)
    (info : gmap string string) : Prop :=
  discord_update_lib.get_installed_build_info P path w = (Returns info, w).

(** The checks of [install_discord] that fail without being forced past. *)
Inductive unforced_failure (path : Path) (tar : string)
    (force strict_channel : bool) (w : World) : Prop :=
  | archive_metadata_missing :
      archive_metadata tar None →
      strict_channel || negb force = true →
      unforced_failure path tar force strict_channel w
  | installed_metadata_missing :
      path_exists (joinpath path BUILD_INFO_PATH) (fs w) = false →
      strict_channel || negb force = true →
      unforced_failure path tar force strict_channel w
  | channel_mismatch (archive installed : gmap string string)
      (c1 c2 : string) :
      archive_metadata tar (Some archive) →
      installed_metadata path w installed →
      archive !! "releaseChannel" = Some c1 →
      installed !! "releaseChannel" = Some c2 →
      c1 ≠ c2 →
      strict_channel = true →
      unforced_failure path tar force strict_channel w
  | version_conflict (archive installed : gmap string string)
      (c t1 t2 : string) (v1 v2 : Version) :
      archive_metadata tar (Some archive) →
      installed_metadata path w installed →
      archive !! "releaseChannel" = Some c →
      installed !! "releaseChannel" = Some c →
      archive !! "version" = Some t1 →
      installed !! "version" = Some t2 →
      parse_version t1 = Ok v1 →
      parse_version t2 = Ok v2 →
      v1 = v2 ∨ Version_lt v1 v2 →
      force = false →
      unforced_failure path tar force strict_channel w.

End vocabulary.

(** The answer of a comparison with its arguments exchanged. *)
Definition flip_Ord (o : Ord) : Ord :=
  match o with
  | GREATER_THAN => LESS_THAN
  | EQUAL_TO => EQUAL_TO
  | LESS_THAN => GREATER_THAN
  end.

(** A run of digits that is not empty: what a group [(\d+)] holds. *)
Definition is_number (g : string) : bool :=
  match g with
  | EmptyString => false
  | String _ _ => digits_only g
  end.

(** The exception of [parse_version] on [text]. *)
Definition parsing_error (text : string) : exn :=
  add_note ("Zero matches for regex " +:+ quoted _VERSION_REGEX_RAW
            +:+ " on string " +:+ quoted text)
    (new ParsingVersionError).

(** No slash of [s] is followed by a digit. *)
Fixpoint no_slash_digit (s : string) : bool :=
  match s with
  | String c s' =>
      negb (bool_decide (c = "/"%char) && negb (no_leading_digit s'))
      && no_slash_digit s'
  | EmptyString => true
  end.

(** The channel whose download location [check_for_updates] asks for. *)
Definition queried_channel (installed_channel : string) : string :=
  if bool_decide (installed_channel = "canary")
     || bool_decide (installed_channel = "ptb")
  then installed_channel else "stable".


(** What the scan of the archive makes of one member: the member as it
    is left, how many times it is listed for extraction, and whether it
    has been taken for the build info. *)
Record verdict := mk_verdict {
  final : TarInfo;
  listed : nat;
  is_info : bool
}.

Definition visit_root (v : verdict) (root_name : string) : verdict :=
  let item := final v in
  let info :=
    is_info v || bool_decide (name item = root_name +:+ BUILD_INFO_PATH) in
  if String.prefix root_name (name item)
  then mk_verdict
         (discord_update_lib.rename
            (discord_update_lib.removeprefix root_name (name item)) item)
         (S (listed v)) info
  else mk_verdict item (listed v) info.

Definition visit (item : TarInfo) : verdict :=
  foldl visit_root (mk_verdict item 0 false) discord_update_lib.root_names.

(** The state of the scan while the member at [i] is visited, from the
    store, the listing and the build info found before. *)
Definition embed (ms0 : list TarInfo) (rm0 : list nat)
    (bi0 : option nat) (i : nat) (v : verdict) : discord_update_lib.scan :=
  discord_update_lib.mk_scan (<[i := final v]> ms0)
    (rm0 ++ replicate (listed v) i)
    (if is_info v then Some i else bi0).

(** The positions listed for extraction, and the positions taken for the
    build info, in the order of the members. *)
Definition listing (ms : list TarInfo) : list nat :=
  mjoin (imap (λ i item, replicate (listed (visit item)) i) ms).

Definition info_positions (ms : list TarInfo) : list nat :=
  mjoin (imap (λ i item, if is_info (visit item) then [i] else []) ms).

(** No root name of the archive is a prefix of [s]. *)
Definition outside_roots (s : string) : bool :=
  forallb (λ root_name, negb (String.prefix root_name s))
    discord_update_lib.root_names.

(** The exception of [stop_discord] when no launcher answers. *)
Definition not_running_error : exn :=
  add_note ("Error connecting to " +:+ discord_launcher_lib.SERVICE_NAME)
    (new DiscordNotRunningError).

(** ** More of the small platform *)

Module Demo2.

Import Demo.

(** A build info whose version is no version. *)
Definition loads_more (s : string) : result (gmap string string) :=
  if bool_decide (s = build_info_doc "latest" "stable")
  then Ok {[ "version" := "latest"; "releaseChannel" := "stable" ]}
  else loads s.

(** The platform [base] with another bus, another service and another
    [json.loads]. *)
Definition platform_with (base : Platform) (pid : World → result Z)
    (published : Z → World → option exn)
    (loads : string → result (gmap string string)) : Platform := {|
  json_loads := loads;
  tarfile_open := tarfile_open base;
  tarfile_extractall := tarfile_extractall base;
  requests_get := requests_get base;
  proxy_PID := pid;
  proxy_Stop := proxy_Stop base;
  proxy_Ping := proxy_Ping base;
  os_kill := os_kill base;
  subprocess_Popen := subprocess_Popen base;
  service_registered := service_registered base;
  service_published := published;
  desktop_entry := desktop_entry base
|}.

Definition timeout_error : exn := mk_exn TimeoutError [] [].

Definition name_taken : exn :=
  mk_exn DBusError [AStr "name already exists on the bus"] [].

(** A bus that does not answer in time. *)
Definition slow_bus : Platform :=
  platform_with (idle "1.2.4") (λ _, Err timeout_error)
    (service_published (idle "1.2.4")) loads.

(** A service that cannot publish its object. *)
Definition taken_name : Platform :=
  platform_with (idle "1.2.4") (proxy_PID (idle "1.2.4"))
    (λ _ _, Some name_taken) loads.

(** A platform that reads the build info with no version. *)
Definition lenient : Platform :=
  platform_with (idle "1.2.4") (proxy_PID (idle "1.2.4"))
    (service_published (idle "1.2.4")) loads_more.

Definition desktop : DesktopEntryConfig :=
  mk_DesktopEntryConfig true (home ++ ["discord.desktop"]) true false.



Definition file_in_the_way : World :=
  mk_World (tree {[ "Discord" := File "not a directory" ]}) [].

(** No directory above the destination. *)
Definition bare : World := mk_World (Dir ∅) [].

End Demo2.

(** * Properties *)

(** ** Exceptions *)

Lemma instantiate_own c msg :
  own_message c = Some msg → instantiate c [] = Ok (new c).
Proof. intros H. unfold instantiate, new. now rewrite H. Qed.

Lemma instantiate_own_with_arguments c msg a args :
  own_message c = Some msg →
  ∃ e, instantiate c (a :: args) = Err e ∧ exn_cls e = TypeError.
Proof. intros H. unfold instantiate. rewrite H. now eexists. Qed.

(** ** Versions *)

Section versions.

Lemma digits_only_string_of_uint d :
  digits_only (NilEmpty.string_of_uint d) = true.
Proof. induction d; simpl; auto. Qed.

Local Arguments is_digit : simpl never.

Lemma decimal_digits_only n : digits_only (decimal n) = true.
Proof. apply digits_only_string_of_uint. Qed.

Lemma decimal_not_empty n : decimal n ≠ EmptyString.
Proof.
  unfold decimal. destruct n as [|p]; [discriminate|].
  pose proof (DecimalPos.Unsigned.to_uint_nonnil p) as Hnil.
  simpl. destruct (Pos.to_uint p); [congruence | discriminate ..].
Qed.

Lemma length_string_of_uint d :
  String.length (NilEmpty.string_of_uint d) = nb_digits d.
Proof. induction d; simpl; auto. Qed.

(** [str] writes the numbers within the limit, and only them. *)
Lemma str_within n : within_limit n → str n = Ok (decimal n).
Proof.
  unfold within_limit, digit_count, str. intros H. cbn zeta.
  destruct (Nat.ltb_spec int_max_str_digits (String.length (decimal n)));
    [lia|done].
Qed.

Lemma str_beyond n : ¬ within_limit n → str n = Err str_limit_error.
Proof.
  unfold within_limit, digit_count, str. intros H. cbn zeta.
  destruct (Nat.ltb_spec int_max_str_digits (String.length (decimal n)));
    [done|lia].
Qed.

Lemma str_Ok n text : str n = Ok text → within_limit n ∧ text = decimal n.
Proof.
  unfold within_limit, digit_count, str. cbn zeta.
  destruct (Nat.ltb_spec int_max_str_digits (String.length (decimal n)));
    [discriminate|]. now intros [= <-].
Qed.

(** [int] reads back what [str] writes. *)
Lemma int_decimal n : within_limit n → int (decimal n) = Ok n.
Proof.
  unfold within_limit, digit_count. intros H.
  unfold int. pose proof (decimal_not_empty n) as Hne.
  assert (NilEmpty.uint_of_string (decimal n) = Some (N.to_uint n)) as Hu
    by apply NilEmpty.usu.
  destruct (decimal n) as [|c s]; [congruence|]. rewrite Hu.
  destruct (Nat.ltb_spec int_max_str_digits (String.length (String c s)));
    [lia|].
  now rewrite DecimalN.Unsigned.of_to.
Qed.

(** What [int] returns is within the limit: [str] writes it. *)
Lemma int_within s n : int s = Ok n → within_limit n.
Proof.
  unfold int. destruct s as [|c s]; [discriminate|].
  destruct (NilEmpty.uint_of_string (String c s)) as [d|] eqn:Hd;
    [|discriminate].
  destruct (Nat.ltb_spec int_max_str_digits (String.length (String c s)))
    as [|Hlen]; [discriminate|].
  intros [= <-]. unfold within_limit, digit_count, decimal.
  rewrite DecimalN.Unsigned.to_of, length_string_of_uint.
  apply NilEmpty.sus in Hd. rewrite <- Hd, length_string_of_uint in Hlen.
  assert (d ≠ Nil) as Hnil by (intros ->; discriminate).
  pose proof (DecimalFacts.nb_digits_unorm d Hnil). lia.
Qed.

Lemma int3_within g1 g2 g3 v : int3 g1 g2 g3 = Ok v → Version_within v.
Proof.
  unfold int3. intros H.
  destruct (int g1) as [a'|] eqn:H1; [|discriminate].
  destruct (int g2) as [b'|] eqn:H2; [|discriminate].
  destruct (int g3) as [c'|] eqn:H3; [|discriminate].
  injection H as <-.
  split; [|split]; eapply int_within; eassumption.
Qed.

(** The versions that [parse_version] returns are within the limit. *)
Lemma parse_version_within s v : parse_version s = Ok v → Version_within v.
Proof.
  unfold parse_version.
  destruct (VERSION_REGEX_match s) as [[[[g1 g2] g3] rest]|];
    [|discriminate].
  apply int3_within.
Qed.

Lemma span_digits_app d rest :
  digits_only d = true → no_leading_digit rest = true →
  span_digits (d +:+ rest) = (d, rest).
Proof.
  intros Hd Hrest. induction d as [|c d IH]; simpl in *.
  - destruct rest as [|c rest]; [done|]. simpl in *.
    now destruct (is_digit c).
  - apply andb_prop in Hd as [-> Hd]. now rewrite IH.
Qed.

Lemma group_digits_decimal n rest :
  no_leading_digit rest = true →
  group_digits (decimal n +:+ rest) = Some (decimal n, rest).
Proof.
  intros Hrest. unfold group_digits.
  rewrite span_digits_app by auto using decimal_digits_only.
  pose proof (decimal_not_empty n). now destruct (decimal n).
Qed.

Lemma app_empty_r s : s +:+ EmptyString = s.
Proof.
  induction s as [|c s IH]; [done|].
  change (String c (s +:+ EmptyString) = String c s). now rewrite IH.
Qed.

Lemma literal_dot s : literal "." ("." +:+ s) = Some s.
Proof. reflexivity. Qed.

(** The text of a version, as [format_version] writes it. *)
Lemma format_version_dots a b c :
  within_limit a → within_limit b → within_limit c →
  format_version [a; b; c]
  = Ok (decimal a +:+ "." +:+ decimal b +:+ "." +:+ decimal c).
Proof.
  intros Ha Hb Hc. unfold format_version. cbn [str_each].
  now rewrite (str_within a), (str_within b), (str_within c) by done.
Qed.

Lemma format_version_text v :
  Version_within v → format_version (version_list v) = Ok (version_text v).
Proof.
  destruct v as [[a b] c]. intros (Ha & Hb & Hc).
  now apply format_version_dots.
Qed.

(** [format_version] has one exception, the [ValueError] of [str]. *)
Lemma format_version_Err version e :
  format_version version = Err e → e = str_limit_error.
Proof.
  unfold format_version.
  assert (∀ e', str_each version = Err e' → e' = str_limit_error) as H.
  { induction version as [|n version IH]; [done|]. cbn [str_each].
    intros e'. destruct (str n) as [text|e0] eqn:Hn.
    - cbn. destruct (str_each version); [done|].
      intros [= <-]. now apply IH.
    - cbn. intros [= <-]. revert Hn. unfold str. cbn zeta.
      destruct (_ <? _)%nat; [now intros [= <-]|done]. }
  destruct (str_each version) as [texts|e0]; [done|].
  cbn. intros [= <-]. now apply H.
Qed.

Lemma VERSION_REGEX_match_dots a b c rest :
  no_leading_digit rest = true →
  VERSION_REGEX_match
    (decimal a +:+ "." +:+ decimal b +:+ "." +:+ decimal c +:+ rest)
  = Some (decimal a, decimal b, decimal c, rest).
Proof.
  intros Hrest. unfold VERSION_REGEX_match.
  apply bind_Some. eexists (_, _).
  split; [apply group_digits_decimal; reflexivity|].
  apply bind_Some. eexists. split; [apply literal_dot|].
  apply bind_Some. eexists (_, _).
  split; [apply group_digits_decimal; reflexivity|].
  apply bind_Some. eexists. split; [apply literal_dot|].
  apply bind_Some. eexists (_, _).
  split; [apply group_digits_decimal; exact Hrest | reflexivity].
Qed.

Lemma parse_version_dots a b c rest :
  within_limit a → within_limit b → within_limit c →
  no_leading_digit rest = true →
  parse_version
    (decimal a +:+ "." +:+ decimal b +:+ "." +:+ decimal c +:+ rest)
  = Ok (a, b, c).
Proof.
  intros Ha Hb Hc Hrest. unfold parse_version.
  rewrite VERSION_REGEX_match_dots by done.
  unfold int3. now rewrite !int_decimal.
Qed.

(** A first group beyond the limit stops [parse_version] at its first
    [int]. *)
Lemma int_beyond n :
  ¬ within_limit n → int (decimal n) = Err (int_limit_error (digit_count n)).
Proof.
  unfold within_limit, digit_count. intros H.
  unfold int. pose proof (decimal_not_empty n) as Hne.
  assert (NilEmpty.uint_of_string (decimal n) = Some (N.to_uint n)) as Hu
    by apply NilEmpty.usu.
  destruct (decimal n) as [|c s]; [congruence|]. rewrite Hu.
  destruct (Nat.ltb_spec int_max_str_digits (String.length (String c s)));
    [done|lia].
Qed.

Lemma parse_version_beyond a b c rest :
  ¬ within_limit a →
  no_leading_digit rest = true →
  parse_version
    (decimal a +:+ "." +:+ decimal b +:+ "." +:+ decimal c +:+ rest)
  = Err (int_limit_error (digit_count a)).
Proof.
  intros Ha Hrest. unfold parse_version.
  rewrite VERSION_REGEX_match_dots by done.
  unfold int3. rewrite (int_beyond a) by exact Ha. reflexivity.
Qed.

(** C9, as amended: for all non-negative integers a, b and c of at most
    4300 decimal digits each, [parse_version] reads the version string
    "a.b.c" as the triple (a, b, c), and [format_version] writes that
    triple back as "a.b.c". *)
Theorem parse_then_format_round_trip (a b c : N) :
  within_limit a → within_limit b → within_limit c →
  parse_version (decimal a +:+ "." +:+ decimal b +:+ "." +:+ decimal c)
  = Ok (a, b, c) ∧
  format_version (version_list (a, b, c))
  = Ok (decimal a +:+ "." +:+ decimal b +:+ "." +:+ decimal c).
Proof.
  intros Ha Hb Hc. split; [|now apply format_version_dots].
  rewrite <- (app_empty_r (decimal c)). now apply parse_version_dots.
Qed.

(** The round trip is about the decimal writing of the numbers: a group
    with a leading zero parses, and is written back without it. *)
Example leading_zero_not_kept :
  parse_version "01.2.3" = Ok (1, 2, 3)%N ∧
  format_version (version_list (1, 2, 3)%N) = Ok "1.2.3".
Proof. split; reflexivity. Qed.

Lemma compare_versions_spec v1 v2 :
  match compare_versions v1 v2 with
  | LESS_THAN => Version_lt v1 v2
  | EQUAL_TO => v1 = v2
  | GREATER_THAN => Version_lt v2 v1
  end.
Proof.
  destruct v1 as [[a1 b1] c1], v2 as [[a2 b2] c2]. unfold compare_versions.
  repeat match goal with
         | |- context [N.ltb ?x ?y] => destruct (N.ltb_spec x y)
         end; simpl; try lia.
  f_equal; [f_equal|]; lia.
Qed.

Lemma compare_versions_refl v : compare_versions v v = EQUAL_TO.
Proof.
  destruct v as [[a b] c]. unfold compare_versions.
  now rewrite !N.ltb_irrefl.
Qed.

Lemma compare_versions_greater v1 v2 :
  Version_lt v2 v1 → compare_versions v1 v2 = GREATER_THAN.
Proof.
  intros Hlt. pose proof (compare_versions_spec v1 v2) as Hspec.
  destruct (compare_versions v1 v2); [done| |].
  - subst. destruct v2 as [[a b] c]. simpl in Hlt. lia.
  - destruct v1 as [[a1 b1] c1], v2 as [[a2 b2] c2]. simpl in *. lia.
Qed.

End versions.

(** ** Computations *)

Section computations.

Context {A B : Type}.

Lemma bind_returns (m : M A) (f : A → M B) w a w' :
  m w = (Returns a, w') → (m ≫= f) w = f a w'.
Proof. intros H. unfold mbind, M_bind. now rewrite H. Qed.

Lemma bind_raises (m : M A) (f : A → M B) w e w' :
  m w = (Raises e, w') → (m ≫= f) w = (Raises e, w').
Proof. intros H. unfold mbind, M_bind. now rewrite H. Qed.

Lemma bind_out_of_fuel (m : M A) (f : A → M B) w w' :
  m w = (OutOfFuel, w') → (m ≫= f) w = (OutOfFuel, w').
Proof. intros H. unfold mbind, M_bind. now rewrite H. Qed.

Lemma try_except_returns (m : M A) handles handler w a w' :
  m w = (Returns a, w') → try_except m handles handler w = (Returns a, w').
Proof. intros H. unfold try_except. now rewrite H. Qed.

Lemma try_except_raises (m : M A) handles handler w e w' :
  m w = (Raises e, w') →
  try_except m handles handler w
  = if handles e then handler e w' else (Raises e, w').
Proof. intros H. unfold try_except. now rewrite H. Qed.

Lemma bind_returns_inv (m : M A) (f : A → M B) w b w2 :
  (m ≫= f) w = (Returns b, w2) →
  ∃ a w1, m w = (Returns a, w1) ∧ f a w1 = (Returns b, w2).
Proof.
  unfold mbind, M_bind. destruct (m w) as [[a| |] w1]; [eauto|done..].
Qed.

End computations.

(** One step of a run that a hypothesis describes. *)
Ltac run_in H :=
  repeat (progress (simpl in H; unfold mbind, M_bind, mret, M_ret in H)).

Lemma read_only_returns {A} (m : M A) w a w' :
  read_only m → m w = (Returns a, w') → w' = w.
Proof.
  intros Hm Hrun. destruct (Hm w) as [[a' Ha]|[e He]]; congruence.
Qed.

Lemma read_only_ret {A} (a : A) : read_only (mret a).
Proof. intros w. left. now exists a. Qed.

Lemma read_only_raise {A} e : read_only (raise e : M A).
Proof. intros w. right. now exists e. Qed.

Lemma read_only_lift {A} (r : result A) : read_only (lift r).
Proof. destruct r; [apply read_only_ret | apply read_only_raise]. Qed.

Lemma read_only_bind {A B} (m : M A) (f : A → M B) :
  read_only m → (∀ a, read_only (f a)) → read_only (m ≫= f).
Proof.
  intros Hm Hf w. destruct (Hm w) as [[a Ha]|[e He]].
  - rewrite (bind_returns _ _ _ _ _ Ha). apply Hf.
  - rewrite (bind_raises _ _ _ _ _ He). right. now exists e.
Qed.

Lemma read_only_try_except {A} (m : M A) handles handler :
  read_only m → (∀ e, read_only (handler e)) →
  read_only (try_except m handles handler).
Proof.
  intros Hm Hh w. destruct (Hm w) as [[a Ha]|[e He]].
  - rewrite (try_except_returns _ _ _ _ _ _ Ha). left. now exists a.
  - rewrite (try_except_raises _ _ _ _ _ _ He).
    destruct (handles e); [apply Hh | right; now exists e].
Qed.

Lemma read_only_if {A} (b : bool) (m1 m2 : M A) :
  read_only m1 → read_only m2 → read_only (if b then m1 else m2).
Proof. now destruct b. Qed.

Lemma read_only_Path_exists p : read_only (Path_exists p).
Proof. intros w. left. now eexists. Qed.

Lemma read_only_Path_is_file p : read_only (Path_is_file p).
Proof. intros w. left. now eexists. Qed.

Lemma read_only_Path_is_dir p : read_only (Path_is_dir p).
Proof. intros w. left. now eexists. Qed.

Lemma read_only_Path_read_bytes p : read_only (Path_read_bytes p).
Proof.
  intros w. unfold Path_read_bytes.
  destruct (resolve p (fs w)) as [[data|es]|]; eauto.
Qed.

Create HintDb read_only discriminated.
#[export] Hint Resolve read_only_ret read_only_raise read_only_lift
  read_only_try_except read_only_Path_exists read_only_Path_is_file
  read_only_Path_is_dir read_only_Path_read_bytes : read_only.
#[export] Hint Extern 2 (read_only (_ ≫= _)) =>
  apply read_only_bind; [|intros ?] : read_only.
#[export] Hint Extern 2 (read_only (if _ then _ else _)) =>
  apply read_only_if : read_only.
#[export] Hint Extern 3 (read_only (match ?x with _ => _ end)) =>
  destruct x : read_only.

(** ** The file system *)

Lemma path_is_dir_exists p n : path_is_dir p n = true → path_exists p n = true.
Proof.
  unfold path_is_dir, path_exists. intros H.
  destruct (resolve p n) as [[|]|]; try discriminate.
  apply bool_decide_eq_true. eauto.
Qed.

Lemma remove_directory_not_dir fuel path w :
  path_is_dir path (fs w) = false →
  discord_update_lib.remove_directory fuel path w = (Returns tt, w).
Proof.
  intros Hdir. destruct fuel; cbn [discord_update_lib.remove_directory];
    (erewrite bind_returns by reflexivity); now rewrite Hdir.
Qed.

(** C10: on a path that does not exist, or that exists and is no
    directory, [remove_directory] returns without raising and leaves the
    world, the file system with it, as it was; so it deletes only under
    a path that is a directory. *)
Theorem remove_directory_skips_non_directory (fuel : nat) (path : Path)
    (w : World) :
  path_exists path (fs w) = false ∨
  (path_exists path (fs w) = true ∧ path_is_dir path (fs w) = false) →
  discord_update_lib.remove_directory fuel path w = (Returns tt, w).
Proof.
  intros H. apply remove_directory_not_dir.
  destruct H as [H|[_ H]]; [|done].
  destruct (path_is_dir path (fs w)) eqn:E; [|done].
  apply path_is_dir_exists in E. congruence.
Qed.

Lemma remove_directory_changes_only_directories fuel path w r w' :
  discord_update_lib.remove_directory fuel path w = (r, w') →
  w' ≠ w → path_is_dir path (fs w) = true.
Proof.
  intros Hrun Hne. destruct (path_is_dir path (fs w)) eqn:E; [done|].
  rewrite remove_directory_not_dir in Hrun by done. congruence.
Qed.

(** *** Removal of a whole directory *)

Section tree.










End tree.

Section removal.

Import discord_update_lib.

Lemma with_fs_with_fs n n' w : with_fs n (with_fs n' w) = with_fs n w.
Proof. reflexivity. Qed.



End removal.

(** ** [install_discord]: the checks come before the replacement *)

Section install.

Variable P : Platform.

Import discord_update_lib.

Lemma read_only_get_installed_build_info path :
  read_only (get_installed_build_info P path).
Proof. unfold get_installed_build_info. auto 10 with read_only. Qed.

Lemma read_only_check_against_installed path json force strict_channel :
  read_only (check_against_installed P path json force strict_channel).
Proof.
  unfold check_against_installed.
  pose proof read_only_get_installed_build_info.
  auto 30 with read_only.
Qed.

Lemma read_only_archive_build_info st force strict_channel :
  read_only (archive_build_info P st force strict_channel).
Proof. unfold archive_build_info. auto 20 with read_only. Qed.

Lemma read_only_read_archive tar : read_only (read_archive P tar).
Proof. unfold read_archive. auto with read_only. Qed.

Lemma read_only_validate path st force strict_channel :
  read_only (validate P path st force strict_channel).
Proof.
  unfold validate.
  pose proof read_only_archive_build_info.
  pose proof read_only_check_against_installed.
  auto 10 with read_only.
Qed.

Lemma get_installed_build_info_missing path w :
  path_exists (joinpath path BUILD_INFO_PATH) (fs w) = false →
  ∃ e, get_installed_build_info P path w = (Raises e, w) ∧
       exn_cls e = BuildInfoNotFoundError.
Proof.
  intros Hmiss. unfold get_installed_build_info.
  erewrite bind_returns by reflexivity. rewrite Hmiss. now eexists.
Qed.

(** With no build info from the archive, the comparison cannot pass. *)
Lemma check_against_installed_empty path force strict_channel w :
  check_against_installed P path ∅ force strict_channel w ≠ (Returns tt, w).
Proof.
  unfold check_against_installed. intros Hrun.
  destruct (read_only_get_installed_build_info path w) as [[ji Hji]|[e He]].
  - rewrite (bind_returns _ _ _ _ _ Hji) in Hrun.
    destruct (getitem ji "version") as [v|e] eqn:Ev; [|done].
    destruct (getitem ji "releaseChannel") as [c|e] eqn:Ec; [|done].
    simpl in Hrun. unfold mbind, M_bind in Hrun. simpl in Hrun. done.
  - now rewrite (bind_raises _ _ _ _ _ He) in Hrun.
Qed.

Lemma getitem_Some (d : gmap string string) key v :
  d !! key = Some v → getitem d key = Ok v.
Proof. intros H. unfold getitem. now rewrite H. Qed.

Lemma check_against_installed_mismatch path archive installed c1 c2
    force w :
  installed_metadata P path w installed →
  archive !! "releaseChannel" = Some c1 →
  installed !! "releaseChannel" = Some c2 →
  c1 ≠ c2 →
  check_against_installed P path archive force true w ≠ (Returns tt, w).
Proof.
  unfold installed_metadata, check_against_installed.
  intros Hji Hc1 Hc2 Hne Hrun.
  rewrite (bind_returns _ _ _ _ _ Hji) in Hrun.
  rewrite (getitem_Some _ _ _ Hc1), (getitem_Some _ _ _ Hc2) in Hrun.
  destruct (getitem installed "version") as [v|e]; [|done].
  simpl in Hrun. unfold mbind, M_bind in Hrun. simpl in Hrun.
  rewrite bool_decide_true in Hrun by done. done.
Qed.

Lemma check_against_installed_conflict path archive installed c t1 t2
    v1 v2 strict_channel w :
  installed_metadata P path w installed →
  archive !! "releaseChannel" = Some c →
  installed !! "releaseChannel" = Some c →
  archive !! "version" = Some t1 →
  installed !! "version" = Some t2 →
  parse_version t1 = Ok v1 →
  parse_version t2 = Ok v2 →
  v1 = v2 ∨ Version_lt v1 v2 →
  check_against_installed P path archive false strict_channel w
  ≠ (Returns tt, w).
Proof.
  unfold installed_metadata, check_against_installed.
  intros Hji Hc1 Hc2 Ht1 Ht2 Hv1 Hv2 Hle Hrun.
  rewrite (bind_returns _ _ _ _ _ Hji) in Hrun.
  rewrite (getitem_Some _ _ _ Hc1), (getitem_Some _ _ _ Hc2),
    (getitem_Some _ _ _ Ht1), (getitem_Some _ _ _ Ht2) in Hrun.
  simpl in Hrun. unfold mbind, M_bind in Hrun. simpl in Hrun.
  rewrite bool_decide_false in Hrun by (intros Hne; now apply Hne).
  rewrite Hv1, Hv2 in Hrun. simpl in Hrun.
  pose proof (compare_versions_spec v1 v2) as Hspec.
  destruct (compare_versions v1 v2); simpl in Hrun; try done.
  destruct Hle as [->|Hlt].
  - destruct v2 as [[a b] c']. simpl in Hspec. lia.
  - destruct v1 as [[a1 b1] c1], v2 as [[a2 b2] c2]. simpl in *. lia.
Qed.

(** An exception of the checks goes through the [except] clause
    whenever the flags do not force past a missing build info. *)
Lemma validate_fails path st force strict_channel w :
  strict_channel || negb force = true →
  (∀ json, archive_build_info P st force strict_channel w
           = (Returns json, w) →
     check_against_installed P path json force strict_channel w
     ≠ (Returns tt, w)) →
  ∃ e, validate P path st force strict_channel w = (Raises e, w).
Proof.
  intros Hflags Hcheck. unfold validate.
  destruct (read_only_archive_build_info st force strict_channel w)
    as [[json Hjson]|[e He]].
  - rewrite (bind_returns _ _ _ _ _ Hjson).
    specialize (Hcheck json Hjson).
    destruct (read_only_check_against_installed path json force
                strict_channel w) as [[[] Hrun]|[e He]]; [done|].
    rewrite (try_except_raises _ _ _ _ _ _ He), Hflags.
    exists e. now destruct (is_a BuildInfoNotFoundError e).
  - rewrite (bind_raises _ _ _ _ _ He). now exists e.
Qed.

Lemma install_discord_stops_at_validation fuel path tar force
    strict_channel w :
  (∀ st, read_archive P tar w = (Returns st, w) →
     ∃ e, validate P path st force strict_channel w = (Raises e, w)) →
  ∃ e, install_discord P fuel path tar force strict_channel w
       = (Raises e, w).
Proof.
  intros Hval. unfold install_discord.
  destruct (read_only_read_archive tar w) as [[st Hst]|[e He]].
  - rewrite (bind_returns _ _ _ _ _ Hst).
    destruct (Hval st Hst) as [e He].
    rewrite (bind_raises _ _ _ _ _ He). now exists e.
  - rewrite (bind_raises _ _ _ _ _ He). now exists e.
Qed.

(** What [archive_build_info] returns for an archive with a given
    metadata. *)
Lemma archive_build_info_of_metadata tar info st force strict_channel
    json w :
  archive_metadata P tar info →
  read_archive P tar w = (Returns st, w) →
  archive_build_info P st force strict_channel w = (Returns json, w) →
  json = default ∅ info.
Proof.
  intros (ms & Hopen & Hinfo) Hst Hjson.
  unfold read_archive in Hst. rewrite Hopen in Hst.
  injection Hst as <-. unfold archive_build_info in Hjson.
  cbn zeta in Hinfo.
  destruct (build_info (scan_members ms)) as [i|].
  - destruct Hinfo as (bytes & json' & Hbytes & Hloads & ->).
    rewrite Hbytes in Hjson. run_in Hjson.
    rewrite Hloads in Hjson. run_in Hjson.
    destruct (getitem json' "version"); [|done].
    destruct (getitem json' "releaseChannel"); [|done].
    run_in Hjson. now injection Hjson as <-.
  - subst info. destruct (strict_channel || negb force);
      now injection Hjson as <-.
Qed.

(** C1: when a check of [install_discord] fails without being forced
    past (the archive has no build info and the flags are not force
    without strict_channel; the installation has no build info, under the
    same flags; the channels differ and strict_channel is set; the
    archive is not newer and force is not set), [install_discord] raises
    and the world is as before: the destination has not been deleted or
    modified. *)
Theorem install_discord_checks_before_replacing (fuel : nat) (path : Path)
    (tar : string) (force strict_channel : bool) (w : World) :
  unforced_failure P path tar force strict_channel w →
  ∃ e, install_discord P fuel path tar force strict_channel w
       = (Raises e, w).
Proof.
  intros Hfail. apply install_discord_stops_at_validation. intros st Hst.
  destruct Hfail as [Hmeta Hflags | Hmiss Hflags
    | archive installed c1 c2 Hmeta Hinst Hc1 Hc2 Hne ->
    | archive installed c t1 t2 v1 v2 Hmeta Hinst Hc1 Hc2 Ht1 Ht2 Hv1 Hv2
        Hle ->].
  - apply validate_fails; [done|]. intros json Hjson.
    rewrite (archive_build_info_of_metadata _ _ _ _ _ _ _ Hmeta Hst Hjson).
    apply check_against_installed_empty.
  - apply validate_fails; [done|]. intros json _ Hrun.
    destruct (get_installed_build_info_missing path w Hmiss) as (e & He & _).
    unfold check_against_installed in Hrun.
    now rewrite (bind_raises _ _ _ _ _ He) in Hrun.
  - apply validate_fails; [done|]. intros json Hjson.
    rewrite (archive_build_info_of_metadata _ _ _ _ _ _ _ Hmeta Hst Hjson).
    now apply (check_against_installed_mismatch _ _ installed c1 c2).
  - apply validate_fails; [now destruct strict_channel|]. intros json Hjson.
    rewrite (archive_build_info_of_metadata _ _ _ _ _ _ _ Hmeta Hst Hjson).
    now apply (check_against_installed_conflict _ _ installed c t1 t2 v1 v2).
Qed.

End install.

(** ** The update check *)

Section check.

Variable P : Platform.

Lemma get_latest_discord_version_returns channel w v w' :
  discord_update_lib.get_latest_discord_version P channel w
  = (Returns v, w') →
  w' = emit (EHttpGet (discord_update_lib.download_url channel) false) w.
Proof.
  unfold discord_update_lib.get_latest_discord_version,
    discord_update_lib.get_download_location, discord_update_lib.http_get.
  intros Hrun. run_in Hrun.
  destruct (requests_get P _ false w) as [response|e]; [|done].
  run_in Hrun.
  destruct (getitem (headers response) "Location") as [location|e]; [|done].
  run_in Hrun.
  destruct (URL_VERSION_REGEX_search location) as [[[g1 g2] g3]|]; [|done].
  destruct (int3 g1 g2 g3); [|done]. run_in Hrun. congruence.
Qed.

Lemma get_latest_discord_version_within channel w v w' :
  discord_update_lib.get_latest_discord_version P channel w
  = (Returns v, w') →
  Version_within v.
Proof.
  unfold discord_update_lib.get_latest_discord_version. intros Hrun.
  apply bind_returns_inv in Hrun as (location & w1 & _ & Hrun).
  destruct (URL_VERSION_REGEX_search location) as [[[g1 g2] g3]|]; [|done].
  destruct (int3 g1 g2 g3) as [v'|] eqn:Hint; [|done].
  injection Hrun as <- _. now apply int3_within in Hint.
Qed.

(** What the check of the update library returns: the comparison of the
    two versions, after one request that follows no redirect. *)
Lemma update_lib_check_returns path w o current latest w' :
  discord_update_lib.check_for_updates P path w
  = (Returns (o, current, latest), w') →
  o = compare_versions current latest ∧
  ∃ url, w' = emit (EHttpGet url false) w.
Proof.
  unfold discord_update_lib.check_for_updates. intros Hrun.
  apply bind_returns_inv in Hrun as (info & w1 & Hinfo & Hrun).
  apply read_only_returns in Hinfo as ->;
    [|apply read_only_get_installed_build_info].
  destruct (getitem info "releaseChannel") as [c|e]; [|done].
  destruct (getitem info "version" ≫= parse_version) as [v|e]; [|done].
  run_in Hrun.
  match type of Hrun with
  | context [discord_update_lib.get_latest_discord_version P ?ch w] =>
      destruct (discord_update_lib.get_latest_discord_version P ch w)
        as [[l| |] w2] eqn:Hlatest; [|done..]
  end.
  apply get_latest_discord_version_returns in Hlatest as ->.
  injection Hrun as <- <- <- <-. eauto.
Qed.

(** Both versions of a check that returns came out of [int]: they are
    within the limit of digits, and [format_version] writes them. *)
Lemma update_lib_check_within path w o current latest w' :
  discord_update_lib.check_for_updates P path w
  = (Returns (o, current, latest), w') →
  Version_within current ∧ Version_within latest.
Proof.
  unfold discord_update_lib.check_for_updates. intros Hrun.
  apply bind_returns_inv in Hrun as (info & w1 & _ & Hrun).
  destruct (getitem info "releaseChannel") as [c|e]; [|done].
  destruct (getitem info "version" ≫= parse_version) as [v|e] eqn:Hv;
    [|done].
  run_in Hrun.
  match type of Hrun with
  | context [discord_update_lib.get_latest_discord_version P ?ch w1] =>
      destruct (discord_update_lib.get_latest_discord_version P ch w1)
        as [[l| |] w2] eqn:Hlatest; [|done..]
  end.
  apply get_latest_discord_version_within in Hlatest.
  injection Hrun as _ <- <- _. split; [|done].
  destruct (getitem info "version") as [text|]; [|done].
  now apply parse_version_within with text.
Qed.

Lemma check_for_updates_within config w o current latest w' :
  discord_launcher_lib.check_for_updates P config w
  = (Returns (o, current, latest), w') →
  Version_within current ∧ Version_within latest.
Proof.
  unfold discord_launcher_lib.check_for_updates. intros Hrun.
  apply bind_returns_inv in Hrun as (info & w1 & _ & Hrun).
  destruct (getitem info "releaseChannel") as [c|e]; [|done].
  run_in Hrun.
  destruct (bool_decide (release_channel config ≠ c)); [done|].
  now apply update_lib_check_within in Hrun.
Qed.

Lemma check_for_updates_returns config w o current latest w' :
  discord_launcher_lib.check_for_updates P config w
  = (Returns (o, current, latest), w') →
  o = compare_versions current latest ∧
  ∃ url, w' = emit (EHttpGet url false) w.
Proof.
  unfold discord_launcher_lib.check_for_updates,
    discord_launcher_lib.get_installed_build_info. intros Hrun.
  apply bind_returns_inv in Hrun as (info & w1 & Hinfo & Hrun).
  apply read_only_returns in Hinfo as ->;
    [|apply read_only_get_installed_build_info].
  destruct (getitem info "releaseChannel") as [c|e]; [|done].
  run_in Hrun.
  destruct (bool_decide (release_channel config ≠ c)); [done|].
  now apply update_lib_check_returns in Hrun.
Qed.

Lemma check_for_updates_mismatch config w info c :
  discord_launcher_lib.get_installed_build_info P config w
  = (Returns info, w) →
  info !! "releaseChannel" = Some c →
  c ≠ release_channel config →
  discord_launcher_lib.check_for_updates P config w
  = (Raises mismatch_call_error, w).
Proof.
  intros Hinfo Hc Hne. unfold discord_launcher_lib.check_for_updates.
  rewrite (bind_returns _ _ _ _ _ Hinfo), (getitem_Some _ _ _ Hc).
  erewrite bind_returns by reflexivity.
  now rewrite bool_decide_true by congruence.
Qed.

End check.

(** ** [update_discord] *)

Section update.

Variable P : Platform.

Import discord_launcher_lib.

Lemma emit_fs e w : fs (emit e w) = fs w.
Proof. reflexivity. Qed.

Lemma emit_trace e w : trace (emit e w) = trace w ++ [e].
Proof. reflexivity. Qed.

(** An exception of the [try] other than a channel mismatch leaves
    [update_discord] at once. *)
Lemma update_discord_raises_in_try fuel config strict_channel w e w' :
  classify (check_for_updates P config) strict_channel w = (Raises e, w') →
  update_discord P fuel config strict_channel w = (Raises e, w').
Proof. intros H. unfold update_discord. now rewrite (bind_raises _ _ _ _ _ H). Qed.

Lemma classify_equal check strict_channel w current latest w' :
  check w = (Returns (EQUAL_TO, current, latest), w') →
  Version_within latest →
  classify check strict_channel w
  = (Raises (add_note (no_update_note latest) (new NoUpdateAvailableError)),
     w').
Proof.
  intros H Hlatest. unfold classify.
  erewrite try_except_raises
    by (erewrite bind_returns by exact H; cbn beta iota zeta;
        unfold lift; erewrite bind_returns
          by (rewrite format_version_text by exact Hlatest; reflexivity);
        reflexivity).
  reflexivity.
Qed.

Lemma classify_greater check strict_channel w current latest w' :
  check w = (Returns (GREATER_THAN, current, latest), w') →
  Version_within current →
  Version_within latest →
  ∃ e, classify check strict_channel w = (Raises e, w') ∧
       exn_cls e = ValueError ∧
       exn_notes e = [newer_note current latest].
Proof.
  intros H Hcurrent Hlatest. unfold classify.
  erewrite try_except_raises
    by (erewrite bind_returns by exact H; cbn beta iota zeta;
        unfold lift; erewrite bind_returns
          by (rewrite format_version_text by exact Hcurrent; reflexivity);
        erewrite bind_returns
          by (rewrite format_version_text by exact Hlatest; reflexivity);
        reflexivity).
  eexists. split; [reflexivity|]. now split.
Qed.

(** The [except] clause, were a channel mismatch to reach it. *)
Lemma classify_mismatch check w e w' :
  check w = (Raises e, w') →
  exn_cls e = ReleaseChannelMismatchError →
  classify check false w = (Returns None, w').
Proof.
  intros H Hcls. unfold classify.
  erewrite try_except_raises by (erewrite bind_raises by exact H; reflexivity).
  unfold is_a. now rewrite bool_decide_true.
Qed.

(** After a swallowed mismatch [update_info] is [None], and the first
    use of it raises. *)
Lemma apply_update_None fuel config strict_channel w info :
  get_installed_build_info P config w = (Returns info, w) →
  apply_update P fuel config strict_channel None w
  = (Raises none_subscript, w).
Proof.
  intros Hinfo. unfold apply_update.
  now rewrite (bind_returns _ _ _ _ _ Hinfo).
Qed.

(** C6: when the check finds the installed version equal to the latest
    published one, [update_discord] raises [NoUpdateAvailableError] with
    a note that names the version; the file system is as before and the
    only request made is the one of the check, which follows no redirect:
    nothing is downloaded or extracted. *)
Theorem update_discord_no_update_available (fuel : nat) (config : Config)
    (strict_channel : bool) (w w' : World) (o : Ord) (v : Version) :
  check_for_updates P config w = (Returns (o, v, v), w') →
  update_discord P fuel config strict_channel w
  = (Raises (add_note (no_update_note v) (new NoUpdateAvailableError)), w') ∧
  fs w' = fs w ∧
  ∃ url, trace w' = trace w ++ [EHttpGet url false].
Proof.
  intros Hcheck.
  destruct (check_for_updates_returns _ _ _ _ _ _ _ Hcheck)
    as (Ho & url & Hw).
  rewrite compare_versions_refl in Ho. subst o.
  split; [|subst w'; eauto].
  apply update_discord_raises_in_try. apply (classify_equal _ _ _ v); [done|].
  now apply check_for_updates_within in Hcheck.
Qed.

(** C7: when the check finds the installed version greater than the
    latest published one, [update_discord] raises a [ValueError], which
    is not [NoUpdateAvailableError]; the file system is as before and
    the only request made is the one of the check: nothing is
    installed. *)
Theorem update_discord_installed_newer (fuel : nat) (config : Config)
    (strict_channel : bool) (w w' : World) (o : Ord)
    (current latest : Version) :
  check_for_updates P config w = (Returns (o, current, latest), w') →
  Version_lt latest current →
  ∃ e, update_discord P fuel config strict_channel w = (Raises e, w') ∧
       exn_cls e = ValueError ∧
       exn_cls e ≠ NoUpdateAvailableError ∧
       fs w' = fs w ∧
       ∃ url, trace w' = trace w ++ [EHttpGet url false].
Proof.
  intros Hcheck Hlt.
  destruct (check_for_updates_returns _ _ _ _ _ _ _ Hcheck)
    as (Ho & url & Hw).
  rewrite (compare_versions_greater _ _ Hlt) in Ho. subst o.
  destruct (check_for_updates_within _ _ _ _ _ _ _ Hcheck)
    as [Hcurrent Hlatest].
  destruct (classify_greater _ strict_channel _ _ _ _ Hcheck Hcurrent Hlatest)
    as (e & He & Hcls & _).
  exists e. split; [now apply update_discord_raises_in_try|].
  split; [done|]. split; [now rewrite Hcls|]. subst w'. eauto.
Qed.

(** Whatever [update_discord] raises, [update_and_run_discord] raises
    too, without running anything. *)
Lemma update_and_run_discord_aborts fuel config args strict_channel w e w' :
  update_discord P fuel config strict_channel w = (Raises e, w') →
  update_and_run_discord P fuel config args strict_channel w
  = (Raises e, w').
Proof.
  intros H. unfold update_and_run_discord.
  now rewrite (bind_raises _ _ _ _ _ H).
Qed.

End update.

(** ** [stop_discord] *)

Section stop.

Variable P : Platform.

Import discord_launcher_lib.

Lemma wait_while_alive_round fuel pid w :
  os_kill P pid 0 w = Ok tt →
  wait_while_alive P (S fuel) pid w
  = wait_while_alive P fuel pid (emit ESleep (emit (EKill pid 0) w)).
Proof.
  intros Hprobe. cbn [wait_while_alive].
  unfold try_except, kill, sleep, mbind, M_bind. simpl.
  now rewrite Hprobe.
Qed.

Lemma wait_while_alive_gone fuel pid w e :
  os_kill P pid 0 w = Err e →
  wait_while_alive P (S fuel) pid w = (Returns tt, emit (EKill pid 0) w).
Proof.
  intros Hprobe. cbn [wait_while_alive].
  unfold try_except, kill, sleep, mbind, M_bind. simpl.
  now rewrite Hprobe.
Qed.

(** The loop ends right after the first probe that fails. *)
Lemma wait_while_alive_returns pid k : ∀ fuel w e,
  (∀ j, j < k → os_kill P pid 0 (after_rounds pid j w) = Ok tt) →
  os_kill P pid 0 (after_rounds pid k w) = Err e →
  k < fuel →
  wait_while_alive P fuel pid w
  = (Returns tt, emit (EKill pid 0) (after_rounds pid k w)).
Proof.
  induction k as [|k IH]; intros [|fuel] w e Halive Hgone Hfuel; try lia.
  - now apply wait_while_alive_gone with e.
  - rewrite wait_while_alive_round by (apply (Halive 0); lia).
    apply (IH _ _ e); [|done|lia].
    intros j Hj. apply (Halive (S j)). lia.
Qed.

(** While every probe succeeds the loop goes on. *)
Lemma wait_while_alive_forever pid fuel : ∀ w,
  (∀ k, os_kill P pid 0 (after_rounds pid k w) = Ok tt) →
  ∃ w', wait_while_alive P fuel pid w = (OutOfFuel, w').
Proof.
  induction fuel as [|fuel IH]; intros w Halive.
  - now eexists.
  - rewrite wait_while_alive_round by apply (Halive 0).
    apply IH. intros k. apply (Halive (S k)).
Qed.

(** The bare [except] lets no exception out of the loop. *)
Lemma wait_while_alive_no_raise pid fuel : ∀ w e w',
  wait_while_alive P fuel pid w ≠ (Raises e, w').
Proof.
  induction fuel as [|fuel IH]; intros w e w'; [done|].
  destruct (os_kill P pid 0 w) as [[]|e0] eqn:Hprobe.
  - rewrite wait_while_alive_round by done. apply IH.
  - now rewrite (wait_while_alive_gone _ _ _ e0).
Qed.

Lemma stop_discord_polls fuel w pid :
  proxy_PID P w = Ok pid →
  proxy_Stop P (emit (EBusCall "PID") w) = Ok tt →
  stop_discord P fuel true w
  = wait_while_alive P fuel pid
      (emit (EBusCall "Stop") (emit (EBusCall "PID") w)).
Proof.
  intros Hpid Hstop. unfold stop_discord, try_except, proxy_call.
  unfold mbind, M_bind. simpl. rewrite Hpid. simpl. rewrite Hstop. simpl.
  pose proof (wait_while_alive_no_raise pid fuel
    (emit (EBusCall "Stop") (emit (EBusCall "PID") w))) as Hno.
  destruct (wait_while_alive P fuel pid _) as [[[]|e|] w']; try done.
  now destruct (Hno e w').
Qed.

Lemma stop_discord_forever fuel w pid :
  proxy_PID P w = Ok pid →
  proxy_Stop P (emit (EBusCall "PID") w) = Ok tt →
  (∀ k, os_kill P pid 0
          (after_rounds pid k
             (emit (EBusCall "Stop") (emit (EBusCall "PID") w))) = Ok tt) →
  (stop_discord P fuel true w).1 = OutOfFuel.
Proof.
  intros Hpid Hstop Halive. rewrite (stop_discord_polls _ _ pid) by done.
  destruct (wait_while_alive_forever pid fuel _ Halive) as [w' ->]. done.
Qed.

Lemma stop_discord_stop_fails fuel w pid e :
  proxy_PID P w = Ok pid →
  proxy_Stop P (emit (EBusCall "PID") w) = Err e →
  ∃ e', stop_discord P fuel true w
        = (Raises e', emit (EBusCall "Stop") (emit (EBusCall "PID") w)).
Proof.
  intros Hpid Hstop. unfold stop_discord, try_except, proxy_call.
  unfold mbind, M_bind. simpl. rewrite Hpid. simpl. rewrite Hstop. simpl.
  destruct (is_a DBusError e); now eexists.
Qed.

(** C8, as the code has it: after a successful PID query,
    [stop_discord] with blocking set raises at once if the stop request
    fails; otherwise it returns right after the first signal probe of
    the PID that fails, having slept once for each probe that succeeded.
    There is no bound on the wait: while every probe succeeds it does
    not return. *)
Theorem stop_discord_blocks_until_exit (w : World) (pid : Z) :
  proxy_PID P w = Ok pid →
  let w0 := emit (EBusCall "PID") w in
  let w1 := emit (EBusCall "Stop") w0 in
  (∀ e fuel, proxy_Stop P w0 = Err e →
     ∃ e', stop_discord P fuel true w = (Raises e', w1)) ∧
  (proxy_Stop P w0 = Ok tt →
   (∀ k e fuel,
      (∀ j, j < k → os_kill P pid 0 (after_rounds pid j w1) = Ok tt) →
      os_kill P pid 0 (after_rounds pid k w1) = Err e →
      k < fuel →
      stop_discord P fuel true w
      = (Returns tt, emit (EKill pid 0) (after_rounds pid k w1))) ∧
   ((∀ k, os_kill P pid 0 (after_rounds pid k w1) = Ok tt) →
    ∀ fuel, (stop_discord P fuel true w).1 = OutOfFuel)).
Proof.
  intros Hpid w0 w1. split; [|intros Hstop; split].
  - intros e fuel Hstop. now apply stop_discord_stop_fails with pid e.
  - intros k e fuel Halive Hgone Hfuel.
    rewrite (stop_discord_polls _ _ pid) by done.
    now apply wait_while_alive_returns with e.
  - intros Halive fuel. now apply stop_discord_forever with pid.
Qed.

End stop.

(** ** Closed instances *)

Section instances.

Import Demo.

(** A run of the whole update, as a check of the embedding: version
    1.2.3 is replaced by the published 1.2.4. *)
Example update_discord_installs_latest :
  discord_launcher_lib.update_discord (idle "1.2.4") 5 (config "stable") true
    (installed "1.2.3" "stable")
  = (Returns (1, 2, 4)%N,
     mk_World (fs (installed "1.2.4" "stable"))
       [EHttpGet (discord_update_lib.download_url "stable") false;
        EBusCall "PID";
        EHttpGet (discord_update_lib.download_url "stable") false;
        EHttpGet (location "1.2.4") true]).
Proof. vm_compute. reflexivity. Qed.

(** The scenario of the specification: 1.2.3 installed, 1.2.4
    published. *)
Example check_for_updates_finds_update :
  discord_launcher_lib.check_for_updates (idle "1.2.4") (config "stable")
    (installed "1.2.3" "stable")
  = (Returns (LESS_THAN, (1, 2, 3)%N, (1, 2, 4)%N),
     emit (EHttpGet (discord_update_lib.download_url "stable") false)
       (installed "1.2.3" "stable")).
Proof. vm_compute. reflexivity. Qed.

(** A forced installation into a fresh destination: the members lose
    the prefix of their root. *)
Example install_discord_strips_root :
  discord_update_lib.install_discord (idle "1.2.4") 5 destination
    "canary-1.2.4.tar.gz" true false fresh
  = (Returns tt, installed "1.2.4" "canary").
Proof. vm_compute. reflexivity. Qed.

Example remove_directory_removes_tree :
  discord_update_lib.remove_directory 2 destination (installed "1.2.3" "stable")
  = (Returns tt, fresh).
Proof. vm_compute. reflexivity. Qed.

(** With one level less the model stops short. *)
Example remove_directory_needs_depth :
  (discord_update_lib.remove_directory 1 destination
     (installed "1.2.3" "stable")).1 = OutOfFuel.
Proof. vm_compute. reflexivity. Qed.

Lemma install_discord_checks_before_replacing_witness :
  ∃ e, discord_update_lib.install_discord (idle "1.2.4") 5 destination
         "stable-1.2.4.tar.gz" false true (installed "1.2.4" "stable")
       = (Raises e, installed "1.2.4" "stable").
Proof.
  apply install_discord_checks_before_replacing.
  apply (version_conflict _ _ _ _ _ _
           {[ "version" := "1.2.4"; "releaseChannel" := "stable" ]}
           {[ "version" := "1.2.4"; "releaseChannel" := "stable" ]}
           "stable" "1.2.4" "1.2.4" (1, 2, 4)%N (1, 2, 4)%N);
    try reflexivity.
  - eexists. split; [reflexivity|]. vm_compute. eexists _, _.
    repeat split; reflexivity.
  - now left.
Defined.

Lemma remove_directory_skips_non_directory_witness :
  discord_update_lib.remove_directory 1 (destination ++ ["Discord"])
    (installed "1.2.4" "stable")
  = (Returns tt, installed "1.2.4" "stable").
Proof.
  apply remove_directory_skips_non_directory.
  right. split; vm_compute; reflexivity.
Defined.

Lemma update_discord_no_update_available_witness :
  discord_launcher_lib.update_discord (idle "1.2.4") 5 (config "stable") true
    (installed "1.2.4" "stable")
  = (Raises (add_note
               (discord_launcher_lib.no_update_note (1, 2, 4)%N)
               (new NoUpdateAvailableError)),
     emit (EHttpGet (discord_update_lib.download_url "stable") false)
       (installed "1.2.4" "stable")).
Proof.
  apply (update_discord_no_update_available (idle "1.2.4") 5
           (config "stable") true (installed "1.2.4" "stable") _ EQUAL_TO).
  vm_compute. reflexivity.
Defined.

Lemma update_discord_installed_newer_witness :
  ∃ e, discord_launcher_lib.update_discord (idle "1.2.4") 5 (config "stable")
         true (installed "1.3.0" "stable")
       = (Raises e,
          emit (EHttpGet (discord_update_lib.download_url "stable") false)
            (installed "1.3.0" "stable")) ∧
       exn_cls e = ValueError.
Proof.
  destruct (update_discord_installed_newer (idle "1.2.4") 5
              (config "stable") true (installed "1.3.0" "stable")
              (emit (EHttpGet (discord_update_lib.download_url "stable") false)
                 (installed "1.3.0" "stable"))
              GREATER_THAN (1, 3, 0)%N (1, 2, 4)%N)
    as (e & Hrun & Hcls & _).
  - vm_compute. reflexivity.
  - simpl. lia.
  - now exists e.
Defined.

(** A client that is gone after two sleeps of the caller. *)
Lemma stop_discord_blocks_until_exit_witness :
  ∃ w', discord_launcher_lib.stop_discord
          (platform "1.2.4" (Some 7%Z) (Some 2)) 10 true fresh
        = (Returns tt, w') ∧ sleeps w' = 2.
Proof.
  destruct (stop_discord_blocks_until_exit
              (platform "1.2.4" (Some 7%Z) (Some 2)) fresh 7%Z)
    as [_ Hstop]; [reflexivity|].
  destruct Hstop as [Hreturns _]; [reflexivity|].
  eexists. split.
  - apply (Hreturns 2 (mk_exn ProcessLookupError [] []) 10);
      [|reflexivity|lia].
    intros [|[|j]] Hj; [reflexivity..|lia].
  - reflexivity.
Defined.

(** C8, the claim as stated, fails: the PID query succeeds, and for a
    client that stays alive [stop_discord] with blocking set never
    returns, whatever number of rounds it is given. *)
Lemma stop_discord_can_block_forever :
  proxy_PID (platform "1.2.4" (Some 7%Z) None) fresh = Ok 7%Z ∧
  ∀ fuel,
    (discord_launcher_lib.stop_discord (platform "1.2.4" (Some 7%Z) None)
       fuel true fresh).1 = OutOfFuel.
Proof.
  split; [reflexivity|]. intros fuel.
  now apply stop_discord_forever with 7%Z.
Qed.

(** C2, at an archive without build info and flags that do not force
    past it: [BuildInfoNotFoundInTarError] is built but not raised.  Over
    an installation the run ends in the [KeyError] of the empty record,
    over a fresh destination in [BuildInfoNotFoundError].  With force
    and without strict_channel the empty record meets the same
    [KeyError] over an installation. *)
Theorem install_discord_archive_error_not_raised (fuel : nat) :
  discord_update_lib.install_discord (idle "1.2.4") fuel destination
    "bare.tar.gz" false true (installed "1.2.4" "stable")
  = (Raises (mk_exn KeyError [AStr "releaseChannel"] []),
     installed "1.2.4" "stable") ∧
  discord_update_lib.install_discord (idle "1.2.4") fuel destination
    "bare.tar.gz" false true fresh
  = (Raises (add_note
               "Expected path: /home/june/Discord/resources/build_info.json"
               (new BuildInfoNotFoundError)),
     fresh) ∧
  discord_update_lib.install_discord (idle "1.2.4") fuel destination
    "bare.tar.gz" true false (installed "1.2.4" "stable")
  = (Raises (mk_exn KeyError [AStr "releaseChannel"] []),
     installed "1.2.4" "stable").
Proof. repeat split; vm_compute; reflexivity. Qed.

(** With force and without strict_channel, over a fresh destination,
    the archive without build info is installed. *)
Example install_discord_forced_without_metadata :
  discord_update_lib.install_discord (idle "1.2.4") 5 destination
    "bare.tar.gz" true false fresh
  = (Returns tt, mk_World (tree {[ "Discord" := Dir {[ "Discord" := File "ELF" ]} ]}) []).
Proof. vm_compute. reflexivity. Qed.

(** C3, at configured channel canary over an installation of stable:
    the call of the exception class raises [TypeError], so no
    [ReleaseChannelMismatchError] and no channel value comes out; no
    request has been made. *)
Theorem check_for_updates_mismatch_raises_TypeError :
  discord_launcher_lib.check_for_updates (idle "1.2.4") (config "canary")
    (installed "1.2.3" "stable")
  = (Raises mismatch_call_error, installed "1.2.3" "stable").
Proof.
  apply (check_for_updates_mismatch _ _ _
           {[ "version" := "1.2.3"; "releaseChannel" := "stable" ]} "stable");
    [vm_compute; reflexivity | reflexivity | discriminate].
Qed.

(** C4, at the same input with strict_channel false: [update_discord]
    raises the [TypeError] of the check and installs nothing; and had
    the mismatch reached the [except] clause, the lines after it would
    raise on [update_info], which is [None]. *)
Theorem update_discord_channel_swap_raises (fuel : nat) :
  discord_launcher_lib.update_discord (idle "1.2.4") fuel (config "canary")
    false (installed "1.2.3" "stable")
  = (Raises mismatch_call_error, installed "1.2.3" "stable") ∧
  discord_launcher_lib.apply_update (idle "1.2.4") fuel (config "canary")
    false None (installed "1.2.3" "stable")
  = (Raises discord_launcher_lib.none_subscript, installed "1.2.3" "stable").
Proof.
  split.
  - apply update_discord_raises_in_try. vm_compute. reflexivity.
  - apply apply_update_None with
      {[ "version" := "1.2.3"; "releaseChannel" := "stable" ]}.
    vm_compute. reflexivity.
Qed.

(** C5, at an installation that is up to date: [update_and_run_discord]
    raises [NoUpdateAvailableError]; the trace ends with the request of
    the check, and no process has been started. *)
Theorem update_and_run_discord_stops_when_up_to_date (fuel : nat) :
  discord_launcher_lib.update_and_run_discord (idle "1.2.4") fuel
    (config "stable") [] true (installed "1.2.4" "stable")
  = (Raises (add_note
               (discord_launcher_lib.no_update_note (1, 2, 4)%N)
               (new NoUpdateAvailableError)),
     emit (EHttpGet (discord_update_lib.download_url "stable") false)
       (installed "1.2.4" "stable")).
Proof.
  apply update_and_run_discord_aborts, update_discord_raises_in_try.
  vm_compute. reflexivity.
Qed.

Lemma parse_then_format_round_trip_witness :
  parse_version "1.2.3" = Ok (1, 2, 3)%N ∧
  format_version (version_list (1, 2, 3)%N) = Ok "1.2.3".
Proof.
  apply (parse_then_format_round_trip 1 2 3);
    apply Nat.leb_le; vm_compute; reflexivity.
Defined.

(** C9, the claim as stated, fails beyond the limit of digits: the
    version string "a.0.0" for a = 10^4300, a number of 4301 digits, is
    not read by [parse_version], whose first [int] raises [ValueError],
    and the triple (a, 0, 0) is not written by [format_version], whose
    first [str] raises [ValueError]. *)
Lemma round_trip_fails_beyond_limit :
  digit_count beyond_limit = 4301 ∧
  parse_version
    (decimal beyond_limit +:+ "." +:+ decimal 0 +:+ "." +:+ decimal 0)
  = Err (int_limit_error 4301) ∧
  format_version (version_list (beyond_limit, 0, 0)%N)
  = Err str_limit_error.
Proof. vm_compute. repeat split; reflexivity. Qed.

End instances.

(** * Further properties of the code *)

(** ** Versions: comparison *)

Section comparison.

(** X1: [compare_versions] with its arguments exchanged gives the
    opposite answer, and it answers [EQUAL_TO] exactly for equal
    triples. *)
Theorem compare_versions_opposite (v1 v2 : Version) :
  compare_versions v2 v1 = flip_Ord (compare_versions v1 v2) ∧
  (compare_versions v1 v2 = EQUAL_TO ↔ v1 = v2).
Proof.
  destruct v1 as [[a1 b1] c1], v2 as [[a2 b2] c2].
  unfold compare_versions.
  repeat match goal with
         | |- context [N.ltb ?x ?y] => destruct (N.ltb_spec x y)
         end; simpl; (split; [done || lia|]);
    (split; [try done; intros _ | try done; intros [= -> -> ->]; lia]).
  f_equal; [f_equal|]; lia.
Qed.

Lemma compare_versions_less v1 v2 :
  compare_versions v1 v2 = LESS_THAN ↔ Version_lt v1 v2.
Proof.
  pose proof (compare_versions_spec v1 v2) as Hspec. split.
  - intros H. now rewrite H in Hspec.
  - intros Hlt. destruct v1 as [[a1 b1] c1], v2 as [[a2 b2] c2].
    destruct (compare_versions _ _); [|injection Hspec as -> -> ->|done];
      simpl in *; lia.
Qed.

(** X2: the answers [LESS_THAN] of [compare_versions] chain: the order
    it decides is transitive. *)
Theorem compare_versions_transitive (v1 v2 v3 : Version) :
  compare_versions v1 v2 = LESS_THAN →
  compare_versions v2 v3 = LESS_THAN →
  compare_versions v1 v3 = LESS_THAN.
Proof.
  rewrite !compare_versions_less.
  destruct v1 as [[a1 b1] c1], v2 as [[a2 b2] c2], v3 as [[a3 b3] c3].
  simpl. lia.
Qed.

End comparison.

(** ** Versions: parsing *)

Section parsing.

Local Arguments is_digit : simpl never.

Lemma span_digits_spec s :
  s = (span_digits s).1 +:+ (span_digits s).2 ∧
  digits_only (span_digits s).1 = true ∧
  no_leading_digit (span_digits s).2 = true.
Proof.
  induction s as [|c s (IH1 & IH2 & IH3)]; [done|].
  cbn [span_digits]. destruct (is_digit c) eqn:Hc.
  - destruct (span_digits s) as [d r]. cbn [fst snd] in *.
    split; [|split]; [|cbn [digits_only]; now rewrite Hc|done].
    change (String c s = String c (d +:+ r)). now f_equal.
  - cbn [fst snd no_leading_digit]. now rewrite Hc.
Qed.

Lemma group_digits_Some s g rest :
  group_digits s = Some (g, rest) ↔
  s = g +:+ rest ∧ is_number g = true ∧ no_leading_digit rest = true.
Proof.
  split.
  - unfold group_digits. intros H.
    destruct (span_digits_spec s) as (H1 & H2 & H3).
    destruct (span_digits s) as [[|c d] r]; [done|].
    injection H as <- <-. done.
  - intros (-> & Hg & Hrest). unfold group_digits.
    destruct g as [|c g]; [done|].
    now rewrite span_digits_app.
Qed.

Lemma literal_Some c s rest : literal c s = Some rest ↔ s = String c rest.
Proof.
  destruct s as [|c' s]; [done|]. cbn [literal].
  destruct (decide (c = c')) as [->|Hne]; split; congruence.
Qed.

Lemma uint_of_digit c d :
  is_digit c = true → is_Some (uint_of_char c (Some d)).
Proof.
  destruct c as [[] [] [] [] [] [] [] []]; intros H;
    vm_compute in H; try discriminate; now eexists.
Qed.

Lemma uint_of_digits g :
  digits_only g = true → is_Some (NilEmpty.uint_of_string g).
Proof.
  induction g as [|c g IH]; [now eexists|]. cbn [digits_only].
  intros [Hc Hg]%andb_prop. destruct (IH Hg) as [d Hd].
  cbn [NilEmpty.uint_of_string]. rewrite Hd. now apply uint_of_digit.
Qed.

Lemma int_Ok_length g n :
  int g = Ok n → (String.length g ≤ int_max_str_digits)%nat.
Proof.
  unfold int. destruct g as [|ch g]; [done|].
  destruct (NilEmpty.uint_of_string _); [|done].
  destruct (Nat.ltb_spec int_max_str_digits (String.length (String ch g)));
    [done|lia].
Qed.

(** On what a group holds, [int] fails only beyond the limit of
    digits. *)
Lemma int_number g :
  is_number g = true →
  (∃ n, int g = Ok n ∧ within_limit n) ∨
  ((int_max_str_digits < String.length g)%nat ∧
   int g = Err (int_limit_error (String.length g))).
Proof.
  destruct g as [|c g]; [done|]. intros Hg.
  destruct (int (String c g)) as [n|e] eqn:Hint.
  - left. exists n. split; [done|]. now apply int_within in Hint.
  - right. revert Hint. unfold int.
    destruct (uint_of_digits (String c g) Hg) as [d ->].
    destruct (Nat.ltb_spec int_max_str_digits (String.length (String c g)));
      [|discriminate].
    now intros [= <-].
Qed.

Lemma VERSION_REGEX_match_Some s g1 g2 g3 rest :
  VERSION_REGEX_match s = Some (g1, g2, g3, rest) ↔
  s = g1 +:+ "." +:+ g2 +:+ "." +:+ g3 +:+ rest ∧
  is_number g1 = true ∧ is_number g2 = true ∧ is_number g3 = true ∧
  no_leading_digit rest = true.
Proof.
  unfold VERSION_REGEX_match. split.
  - intros H.
    apply bind_Some in H as ([g1' s1] & H1 & H).
    apply bind_Some in H as (s1' & L1 & H).
    apply bind_Some in H as ([g2' s2] & H2 & H).
    apply bind_Some in H as (s2' & L2 & H).
    apply bind_Some in H as ([g3' s3] & H3 & H).
    injection H as <- <- <- <-.
    apply group_digits_Some in H1 as (-> & ? & _).
    apply group_digits_Some in H2 as (-> & ? & _).
    apply group_digits_Some in H3 as (-> & ? & ?).
    apply literal_Some in L1 as ->. apply literal_Some in L2 as ->.
    done.
  - intros (-> & Hg1 & Hg2 & Hg3 & Hrest).
    apply bind_Some. exists (g1, "." +:+ g2 +:+ "." +:+ g3 +:+ rest).
    split; [now apply group_digits_Some|].
    apply bind_Some. eexists. split; [now apply literal_Some|].
    apply bind_Some. exists (g2, "." +:+ g3 +:+ rest).
    split; [now apply group_digits_Some|].
    apply bind_Some. eexists. split; [now apply literal_Some|].
    apply bind_Some. exists (g3, rest).
    split; [now apply group_digits_Some|done].
Qed.

(** X3: [parse_version] returns a version exactly for the strings that
    begin with three runs of digits separated by dots and whose runs
    [int] converts; the version holds the three numbers, and what
    follows the third run is ignored. *)
Theorem parse_version_accepts (s : string) (v : Version) :
  parse_version s = Ok v ↔
  ∃ g1 g2 g3 rest,
    s = g1 +:+ "." +:+ g2 +:+ "." +:+ g3 +:+ rest ∧
    is_number g1 = true ∧ is_number g2 = true ∧ is_number g3 = true ∧
    no_leading_digit rest = true ∧
    int3 g1 g2 g3 = Ok v.
Proof.
  unfold parse_version. split.
  - destruct (VERSION_REGEX_match s) as [[[[g1 g2] g3] rest]|] eqn:Hm; [|done].
    intros Hv. exists g1, g2, g3, rest.
    apply VERSION_REGEX_match_Some in Hm as (? & ? & ? & ? & ?). done.
  - intros (g1 & g2 & g3 & rest & Hs & H1 & H2 & H3 & Hrest & Hv).
    assert (VERSION_REGEX_match s = Some (g1, g2, g3, rest)) as ->; [|done].
    now apply VERSION_REGEX_match_Some.
Qed.

(** X4: [parse_version] has two exceptions and no other: without a
    match it raises [ParsingVersionError] with the note that quotes the
    pattern and the string; with a match it raises the [ValueError] of
    [int] for the first group of more than 4300 digits.  The version it
    returns otherwise has three numbers within that limit. *)
Theorem parse_version_exceptions (s : string) :
  match parse_version s with
  | Ok v => Version_within v
  | Err e =>
      e = parsing_error s ∨
      ∃ g1 g2 g3 rest over,
        VERSION_REGEX_match s = Some (g1, g2, g3, rest) ∧
        (int_max_str_digits < String.length over)%nat ∧
        e = int_limit_error (String.length over) ∧
        (over = g1 ∨
         ((String.length g1 ≤ int_max_str_digits)%nat ∧
          (over = g2 ∨
           ((String.length g2 ≤ int_max_str_digits)%nat ∧ over = g3))))
  end.
Proof.
  destruct (parse_version s) as [v|e] eqn:Hparse;
    [now apply parse_version_within in Hparse|].
  revert Hparse. unfold parse_version.
  destruct (VERSION_REGEX_match s) as [[[[g1 g2] g3] rest]|] eqn:Hm;
    [|intros [= <-]; now left].
  intros Hint. right. exists g1, g2, g3, rest.
  apply VERSION_REGEX_match_Some in Hm as (_ & H1 & H2 & H3 & _).
  unfold int3 in Hint.
  destruct (int_number _ H1) as [(a & Ha & _)|[L1 E1]].
  - pose proof (int_Ok_length _ _ Ha) as B1. rewrite Ha in Hint.
    destruct (int_number _ H2) as [(b & Hb & _)|[L2 E2]].
    + pose proof (int_Ok_length _ _ Hb) as B2. rewrite Hb in Hint.
      destruct (int_number _ H3) as [(c & Hc & _)|[L3 E3]].
      * now rewrite Hc in Hint.
      * rewrite E3 in Hint. injection Hint as <-.
        exists g3. repeat split; auto.
    + rewrite E2 in Hint. injection Hint as <-.
      exists g2. repeat split; auto.
  - rewrite E1 in Hint. injection Hint as <-.
    exists g1. repeat split; auto.
Qed.

End parsing.

(** ** The latest version *)

Section latest.

Variable P : Platform.

Local Arguments is_digit : simpl never.

Lemma URL_VERSION_REGEX_here_dots a b c post :
  URL_VERSION_REGEX_here
    ("/" +:+ decimal a +:+ "." +:+ decimal b +:+ "." +:+ decimal c +:+ "/" +:+ post)
  = Some (decimal a, decimal b, decimal c).
Proof.
  unfold URL_VERSION_REGEX_here.
  apply bind_Some. eexists. split; [reflexivity|].
  apply bind_Some. exists (decimal a, decimal b, decimal c, "/" +:+ post).
  split; [now apply VERSION_REGEX_match_dots|].
  apply bind_Some. eexists. split; reflexivity.
Qed.

Lemma URL_VERSION_REGEX_here_no_digit c s :
  (c = "/"%char → no_leading_digit s = true) →
  URL_VERSION_REGEX_here (String c s) = None.
Proof.
  intros Hs. unfold URL_VERSION_REGEX_here. cbn [literal].
  destruct (decide ("/"%char = c)) as [<-|]; [|done].
  cbn. unfold VERSION_REGEX_match.
  assert (group_digits s = None) as ->; [|done].
  destruct (group_digits s) as [[g rest]|] eqn:Hg; [|done].
  apply group_digits_Some in Hg as (-> & Hg & _).
  specialize (Hs eq_refl). destruct g as [|d g]; [done|].
  change (negb (is_digit d) = true) in Hs.
  cbn [is_number digits_only] in Hg.
  apply andb_prop in Hg as [Hd _]. now rewrite Hd in Hs.
Qed.

Lemma no_leading_digit_app s t :
  no_leading_digit s = true → no_leading_digit ("/" +:+ t) = true →
  no_leading_digit (s +:+ "/" +:+ t) = true.
Proof. now destruct s. Qed.

(** The search finds a version between slashes behind any text in
    which no slash is followed by a digit. *)
Lemma URL_VERSION_REGEX_search_dots pre a b c post :
  no_slash_digit pre = true →
  URL_VERSION_REGEX_search
    (pre +:+ "/" +:+ decimal a +:+ "." +:+ decimal b +:+ "." +:+ decimal c
     +:+ "/" +:+ post)
  = Some (decimal a, decimal b, decimal c).
Proof.
  intros Hpre. induction pre as [|ch pre IH].
  - change (EmptyString +:+ ?s) with s.
    destruct (String.append _ _) eqn:E in |- *; [done|].
    cbn [URL_VERSION_REGEX_search]. rewrite <- E.
    now rewrite URL_VERSION_REGEX_here_dots.
  - cbn [no_slash_digit] in Hpre.
    apply andb_prop in Hpre as [Hch Hpre].
    change (String ch pre +:+ ?s) with (String ch (pre +:+ s)).
    cbn [URL_VERSION_REGEX_search].
    rewrite URL_VERSION_REGEX_here_no_digit; [now apply IH|].
    intros ->. rewrite bool_decide_true in Hch by done.
    cbn in Hch. apply negb_true_iff, negb_false_iff in Hch.
    now apply no_leading_digit_app.
Qed.

Lemma get_latest_discord_version_trace channel w :
  (discord_update_lib.get_latest_discord_version P channel w).2
  = emit (EHttpGet (discord_update_lib.download_url channel) false) w.
Proof.
  unfold discord_update_lib.get_latest_discord_version,
    discord_update_lib.get_download_location, discord_update_lib.http_get.
  unfold mbind, M_bind. simpl.
  destruct (requests_get P _ false w) as [response|e]; [|done]. simpl.
  destruct (getitem (headers response) "Location") as [location|e]; [|done].
  simpl.
  destruct (URL_VERSION_REGEX_search location) as [[[g1 g2] g3]|]; [|done].
  now destruct (int3 g1 g2 g3).
Qed.

(** X5: whatever the answer of the server, [get_latest_discord_version]
    makes one request, to the download address of the channel and
    without following the redirect; it does not touch the file
    system. *)
Theorem get_latest_discord_version_one_request (channel : string)
    (w : World) :
  (discord_update_lib.get_latest_discord_version P channel w).2
  = emit (EHttpGet (discord_update_lib.download_url channel) false) w.
Proof. apply get_latest_discord_version_trace. Qed.

(** X6: when the redirect of the channel points to an address that
    holds "/a.b.c/" behind a text in which no slash is followed by a
    digit, with a, b and c of at most 4300 digits each,
    [get_latest_discord_version] returns (a, b, c). *)
Theorem get_latest_discord_version_reads_location (channel : string)
    (w : World) (response : Response) (pre post : string) (a b c : N) :
  requests_get P (discord_update_lib.download_url channel) false w
  = Ok response →
  headers response !! "Location"
  = Some (pre +:+ "/" +:+ decimal a +:+ "." +:+ decimal b +:+ "."
          +:+ decimal c +:+ "/" +:+ post) →
  no_slash_digit pre = true →
  Version_within (a, b, c) →
  discord_update_lib.get_latest_discord_version P channel w
  = (Returns (a, b, c),
     emit (EHttpGet (discord_update_lib.download_url channel) false) w).
Proof.
  intros Hget Hloc Hpre (Ha & Hb & Hc).
  unfold discord_update_lib.get_latest_discord_version,
    discord_update_lib.get_download_location, discord_update_lib.http_get.
  unfold mbind, M_bind. simpl. rewrite Hget. simpl.
  rewrite (getitem_Some _ _ _ Hloc). simpl.
  rewrite URL_VERSION_REGEX_search_dots by done.
  unfold int3. now rewrite !int_decimal.
Qed.

End latest.

(** ** The file system: what a removal leaves *)

Section frame.




End frame.

Section removal_frame.

Import discord_update_lib.


Variable P : Platform.




(** X9: when the destination is a file, [replace_installation] raises
    [FileExistsError] and leaves the world as it was: the file is not
    removed. *)
Theorem replace_installation_over_file (fuel : nat) (p : Path) (st : scan)
    (w : World) (d : string) :
  resolve p (fs w) = Some (File d) →
  replace_installation P fuel p st w
  = (Raises (os_error FileExistsError p), w).
Proof.
  intros Hres. unfold replace_installation.
  erewrite bind_returns by reflexivity.
  unfold path_exists. rewrite Hres, bool_decide_true by eauto.
  erewrite bind_returns
    by (apply remove_directory_not_dir; unfold path_is_dir; now rewrite Hres).
  erewrite bind_raises; [reflexivity|].
  unfold Path_mkdir, path_exists. rewrite Hres.
  now rewrite bool_decide_true by eauto.
Qed.

(** X10: when neither the destination nor its parent directory exists,
    [replace_installation] raises [FileNotFoundError] and leaves the
    world as it was: the directory is made without its parents. *)
Theorem replace_installation_without_parent (fuel : nat) (p : Path)
    (st : scan) (w : World) :
  resolve p (fs w) = None →
  resolve (parent p) (fs w) = None →
  replace_installation P fuel p st w
  = (Raises (os_error FileNotFoundError p), w).
Proof.
  intros Hnone Hparent. unfold replace_installation.
  erewrite bind_returns by reflexivity.
  unfold path_exists. rewrite Hnone.
  rewrite bool_decide_false by (now intros [x Hx]).
  erewrite bind_returns by reflexivity.
  erewrite bind_raises; [reflexivity|].
  unfold Path_mkdir, path_exists. rewrite Hnone, Hparent.
  now rewrite bool_decide_false by (now intros [x Hx]).
Qed.

End removal_frame.

(** ** [install_discord]: when the checks let the archive through *)

Section passing.

Variable P : Platform.

Import discord_update_lib.

Lemma install_discord_of_validate fuel path tar ms force strict_channel w :
  tarfile_open P tar = Ok ms →
  validate P path (scan_members ms) force strict_channel w
  = (Returns tt, w) →
  install_discord P fuel path tar force strict_channel w
  = replace_installation P fuel path (scan_members ms) w.
Proof.
  intros Hopen Hval. unfold install_discord, read_archive.
  rewrite Hopen. erewrite bind_returns by reflexivity.
  now erewrite bind_returns by exact Hval.
Qed.

Lemma install_discord_validate_raises fuel path tar ms force
    strict_channel w e :
  tarfile_open P tar = Ok ms →
  validate P path (scan_members ms) force strict_channel w
  = (Raises e, w) →
  install_discord P fuel path tar force strict_channel w = (Raises e, w).
Proof.
  intros Hopen Hval. unfold install_discord, read_archive.
  rewrite Hopen. erewrite bind_returns by reflexivity.
  now erewrite bind_raises by exact Hval.
Qed.

Lemma archive_build_info_present tar ms archive t c force strict_channel w :
  tarfile_open P tar = Ok ms →
  archive_metadata P tar (Some archive) →
  archive !! "version" = Some t →
  archive !! "releaseChannel" = Some c →
  archive_build_info P (scan_members ms) force strict_channel w
  = (Returns archive, w).
Proof.
  intros Hopen (ms' & Hopen' & Hinfo) Ht Hc.
  rewrite Hopen in Hopen'. injection Hopen' as <-. cbn zeta in Hinfo.
  unfold archive_build_info.
  destruct (build_info (scan_members ms)) as [i|]; [|done].
  destruct Hinfo as (bytes & json & Hbytes & Hloads & [= <-]).
  rewrite Hbytes. erewrite bind_returns by reflexivity.
  rewrite Hloads. erewrite bind_returns by reflexivity.
  rewrite (getitem_Some _ _ _ Ht), (getitem_Some _ _ _ Hc).
  reflexivity.
Qed.

Lemma validate_of_check path st force strict_channel w json :
  archive_build_info P st force strict_channel w = (Returns json, w) →
  check_against_installed P path json force strict_channel w
  = (Returns tt, w) →
  validate P path st force strict_channel w = (Returns tt, w).
Proof.
  intros Hjson Hcheck. unfold validate.
  rewrite (bind_returns _ _ _ _ _ Hjson).
  now apply try_except_returns.
Qed.

Lemma validate_of_check_raises path st force strict_channel w json e :
  archive_build_info P st force strict_channel w = (Returns json, w) →
  check_against_installed P path json force strict_channel w
  = (Raises e, w) →
  exn_cls e ≠ BuildInfoNotFoundError →
  validate P path st force strict_channel w = (Raises e, w).
Proof.
  intros Hjson Hcheck Hcls. unfold validate.
  rewrite (bind_returns _ _ _ _ _ Hjson).
  rewrite (try_except_raises _ _ _ _ _ _ Hcheck).
  unfold is_a. now rewrite bool_decide_false.
Qed.

(** X11: without strict_channel, an archive of another channel than
    the installed one passes the checks whatever the two versions are
    and whether or not force is set: [install_discord] goes on to
    replace the installation. *)
Theorem install_discord_accepts_channel_swap (fuel : nat) (path : Path)
    (tar : string) (ms : list TarInfo) (force : bool) (w : World)
    (archive installed : gmap string string) (t1 t2 c1 c2 : string) :
  tarfile_open P tar = Ok ms →
  archive_metadata P tar (Some archive) →
  installed_metadata P path w installed →
  archive !! "version" = Some t1 →
  archive !! "releaseChannel" = Some c1 →
  installed !! "version" = Some t2 →
  installed !! "releaseChannel" = Some c2 →
  c1 ≠ c2 →
  install_discord P fuel path tar force false w
  = replace_installation P fuel path (scan_members ms) w.
Proof.
  intros Hopen Hmeta Hinst Ht1 Hc1 Ht2 Hc2 Hne.
  apply install_discord_of_validate; [done|].
  apply validate_of_check with archive;
    [now apply archive_build_info_present with tar t1 c1|].
  unfold check_against_installed.
  rewrite (bind_returns _ _ _ _ _ Hinst).
  rewrite (getitem_Some _ _ _ Ht2), (getitem_Some _ _ _ Hc2),
    (getitem_Some _ _ _ Hc1).
  unfold mbind, M_bind. simpl. now rewrite bool_decide_true.
Qed.

(** X12: an archive of the installed channel passes the checks when it
    is newer than the installation, and, with force, whatever its
    version. *)
Theorem install_discord_accepts_newer_or_forced (fuel : nat) (path : Path)
    (tar : string) (ms : list TarInfo) (force strict_channel : bool)
    (w : World) (archive installed : gmap string string)
    (t1 t2 c : string) (v1 v2 : Version) :
  tarfile_open P tar = Ok ms →
  archive_metadata P tar (Some archive) →
  installed_metadata P path w installed →
  archive !! "version" = Some t1 →
  archive !! "releaseChannel" = Some c →
  installed !! "version" = Some t2 →
  installed !! "releaseChannel" = Some c →
  parse_version t1 = Ok v1 →
  parse_version t2 = Ok v2 →
  force = true ∨ Version_lt v2 v1 →
  install_discord P fuel path tar force strict_channel w
  = replace_installation P fuel path (scan_members ms) w.
Proof.
  intros Hopen Hmeta Hinst Ht1 Hc1 Ht2 Hc2 Hv1 Hv2 Hok.
  apply install_discord_of_validate; [done|].
  apply validate_of_check with archive;
    [now apply archive_build_info_present with tar t1 c|].
  unfold check_against_installed.
  rewrite (bind_returns _ _ _ _ _ Hinst).
  rewrite (getitem_Some _ _ _ Ht2), (getitem_Some _ _ _ Hc2),
    (getitem_Some _ _ _ Hc1), (getitem_Some _ _ _ Ht1).
  unfold mbind, M_bind. simpl.
  rewrite bool_decide_false by (intros Hne; now apply Hne).
  rewrite Hv1, Hv2. simpl.
  destruct Hok as [->|Hlt].
  - now destruct (compare_versions v1 v2).
  - now rewrite (compare_versions_greater _ _ Hlt).
Qed.

(** X13: with force and without strict_channel, a destination without
    build info passes the checks: [install_discord] goes on to replace
    it, whether the archive has no build info or one with both
    fields. *)
Theorem install_discord_accepts_missing_installation (fuel : nat)
    (path : Path) (tar : string) (ms : list TarInfo) (w : World)
    (info : option (gmap string string)) :
  tarfile_open P tar = Ok ms →
  archive_metadata P tar info →
  (∀ archive, info = Some archive →
     is_Some (archive !! "version") ∧
     is_Some (archive !! "releaseChannel")) →
  path_exists (joinpath path BUILD_INFO_PATH) (fs w) = false →
  install_discord P fuel path tar true false w
  = replace_installation P fuel path (scan_members ms) w.
Proof.
  intros Hopen Hmeta Hkeys Hmiss.
  apply install_discord_of_validate; [done|].
  destruct (get_installed_build_info_missing P path w Hmiss)
    as (e & He & Hcls).
  assert (∃ json, archive_build_info P (scan_members ms) true false w
                  = (Returns json, w)) as [json Hjson].
  { destruct info as [archive|].
    - destruct (Hkeys archive eq_refl) as [[t Ht] [c Hc]].
      exists archive. now apply archive_build_info_present with tar t c.
    - destruct Hmeta as (ms' & Hopen' & Hinfo).
      rewrite Hopen in Hopen'. injection Hopen' as <-. cbn zeta in Hinfo.
      unfold archive_build_info.
      destruct (build_info (scan_members ms)) as [i|]; [|now eexists].
      now destruct Hinfo as (? & ? & _ & _ & ?). }
  unfold validate. rewrite (bind_returns _ _ _ _ _ Hjson).
  erewrite try_except_raises
    by (unfold check_against_installed;
        now rewrite (bind_raises _ _ _ _ _ He)).
  unfold is_a. now rewrite bool_decide_true.
Qed.

(** X14: force does not skip the reading of the versions: with an
    archive of the installed channel and an installed version text that
    [parse_version] rejects, [install_discord] raises
    [ParsingVersionError] whatever the flags, and the world is as
    before. *)
Theorem install_discord_unparsable_installed_version (fuel : nat)
    (path : Path) (tar : string) (ms : list TarInfo)
    (force strict_channel : bool) (w : World)
    (archive installed : gmap string string) (t1 t2 c : string)
    (v1 : Version) :
  tarfile_open P tar = Ok ms →
  archive_metadata P tar (Some archive) →
  installed_metadata P path w installed →
  archive !! "version" = Some t1 →
  archive !! "releaseChannel" = Some c →
  installed !! "version" = Some t2 →
  installed !! "releaseChannel" = Some c →
  parse_version t1 = Ok v1 →
  parse_version t2 = Err (parsing_error t2) →
  install_discord P fuel path tar force strict_channel w
  = (Raises (parsing_error t2), w).
Proof.
  intros Hopen Hmeta Hinst Ht1 Hc1 Ht2 Hc2 Hv1 Hv2.
  apply install_discord_validate_raises with ms; [done|].
  apply validate_of_check_raises with archive;
    [now apply archive_build_info_present with tar t1 c| |done].
  unfold check_against_installed.
  rewrite (bind_returns _ _ _ _ _ Hinst).
  rewrite (getitem_Some _ _ _ Ht2), (getitem_Some _ _ _ Hc2),
    (getitem_Some _ _ _ Hc1), (getitem_Some _ _ _ Ht1).
  unfold mbind, M_bind. simpl.
  rewrite bool_decide_false by (intros Hne; now apply Hne).
  now rewrite Hv1, Hv2.
Qed.

End passing.

(** ** The scan of the archive, member by member *)

Section scanning.

Import discord_update_lib.

Local Arguments visit : simpl never.

Lemma scan_root_embed ms0 rm0 bi0 i v root_name :
  i < length ms0 →
  scan_root i (embed ms0 rm0 bi0 i v) root_name
  = embed ms0 rm0 bi0 i (visit_root v root_name).
Proof.
  intros Hi. unfold scan_root, embed, visit_root. cbn [members].
  rewrite list_lookup_insert_eq by done.
  destruct (bool_decide (name (final v) = root_name +:+ BUILD_INFO_PATH));
    destruct (String.prefix root_name (name (final v)));
    destruct (is_info v); cbn;
    rewrite ?list_insert_insert_eq, ?replicate_cons_app, ?app_assoc;
    reflexivity.
Qed.

Lemma scan_roots_embed ms0 rm0 bi0 i roots : ∀ v,
  i < length ms0 →
  foldl (scan_root i) (embed ms0 rm0 bi0 i v) roots
  = embed ms0 rm0 bi0 i (foldl visit_root v roots).
Proof.
  induction roots as [|r roots IH]; intros v Hi; [done|].
  cbn [foldl]. rewrite scan_root_embed by done. now apply IH.
Qed.

Lemma scan_item_spec st i item :
  members st !! i = Some item →
  scan_item st i
  = mk_scan (<[i := final (visit item)]> (members st))
      (root_members st ++ replicate (listed (visit item)) i)
      (if is_info (visit item) then Some i else build_info st).
Proof.
  intros Hi. unfold scan_item.
  assert (st = embed (members st) (root_members st) (build_info st) i
                 (mk_verdict item 0 false)) as Hst.
  { unfold embed. cbn. rewrite list_insert_id by done.
    rewrite app_nil_r. now destruct st. }
  rewrite Hst at 1.
  rewrite scan_roots_embed by (now apply lookup_lt_Some with item).
  reflexivity.
Qed.

Lemma scan_prefix ms k :
  k ≤ length ms →
  foldl scan_item (mk_scan ms [] None) (seq 0 k)
  = mk_scan ((final ∘ visit <$> take k ms) ++ drop k ms)
      (listing (take k ms)) (last (info_positions (take k ms))).
Proof.
  induction k as [|k IH]; intros Hk.
  { cbn. now rewrite drop_0. }
  rewrite seq_S, foldl_app, IH by lia. cbn [foldl Nat.add].
  destruct (lookup_lt_is_Some_2 ms k) as [item Hitem]; [lia|].
  assert (length (final ∘ visit <$> take k ms) = k) as Hlen.
  { rewrite length_fmap, length_take_le; lia. }
  rewrite (scan_item_spec _ _ item).
  2:{ cbn [members]. rewrite lookup_app_r by lia.
      rewrite Hlen, Nat.sub_diag, lookup_drop. now rewrite Nat.add_0_r. }
  cbn [members root_members build_info].
  rewrite (take_S_r _ _ _ Hitem). f_equal.
  - rewrite insert_app_r_alt by lia. rewrite Hlen, Nat.sub_diag.
    rewrite (drop_S _ _ _ Hitem). cbn. rewrite fmap_app. cbn.
    now rewrite <- app_assoc.
  - unfold listing. rewrite imap_app, join_app. cbn.
    rewrite length_take_le by lia. now rewrite Nat.add_0_r, app_nil_r.
  - unfold info_positions. rewrite imap_app, join_app. cbn.
    rewrite length_take_le by lia. rewrite Nat.add_0_r, app_nil_r.
    destruct (is_info (visit item)); [now rewrite last_snoc|].
    now rewrite app_nil_r.
Qed.

Lemma scan_members_visit ms :
  scan_members ms
  = mk_scan (final ∘ visit <$> ms) (listing ms)
      (last (info_positions ms)).
Proof.
  unfold scan_members. rewrite scan_prefix by done.
  now rewrite take_ge, drop_all, app_nil_r by done.
Qed.

(** X15: the scan of the archive treats each member on its own: the
    store of members it leaves holds, at each position, what [visit]
    makes of the member there; a position is listed for extraction as
    many times as a root name was stripped from its member; the build
    info is the last member taken for it. *)
Theorem scan_members_by_member (ms : list TarInfo) :
  scan_members ms
  = mk_scan (final ∘ visit <$> ms) (listing ms)
      (last (info_positions ms)).
Proof. apply scan_members_visit. Qed.

Lemma visit_outside item :
  outside_roots (name item) = true → visit item = mk_verdict item 0 false.
Proof.
  unfold outside_roots, visit, root_names. cbn [forallb foldl].
  intros H. apply andb_prop in H as [H1 H].
  apply andb_prop in H as [H2 H]. apply andb_prop in H as [H3 _].
  apply negb_true_iff in H1, H2, H3.
  assert (∀ root_name v, final v = item → is_info v = false →
            String.prefix root_name (name item) = false →
            visit_root v root_name = mk_verdict item (listed v) false)
    as Hstep.
  { intros r v Hv Hinfo Hr. unfold visit_root. rewrite Hv, Hinfo, Hr.
    rewrite bool_decide_false; [done|].
    intros Heq. rewrite Heq in Hr.
    assert (String.prefix r (r +:+ BUILD_INFO_PATH) = true) as Hp; [|congruence].
    clear. induction r as [|c r IH]; [done|].
    change (String c r +:+ ?s) with (String c (r +:+ s)).
    cbn [String.prefix]. now destruct (ascii_dec c c). }
  rewrite (Hstep "Discord/") by done.
  rewrite (Hstep "DiscordPTB/") by done.
  now rewrite (Hstep "DiscordCanary/") by done.
Qed.

(** X16: a member whose name begins with none of the three root names
    is left as it is by the scan, is not listed for extraction and is
    not taken for the build info. *)
Theorem scan_members_skips_outside_roots (ms : list TarInfo) (i : nat)
    (item : TarInfo) :
  ms !! i = Some item →
  outside_roots (name item) = true →
  (members (scan_members ms) !! i = Some item) ∧
  (i ∉ root_members (scan_members ms)) ∧
  (build_info (scan_members ms) ≠ Some i).
Proof.
  intros Hi Hout. rewrite scan_members_visit. cbn.
  pose proof (visit_outside item Hout) as Hv.
  split; [|split].
  - rewrite list_lookup_fmap, Hi. cbn. now rewrite Hv.
  - unfold listing. intros Hin. apply list_elem_of_join in Hin
      as (l & Hin & Hl).
    apply list_elem_of_lookup in Hl as [j Hj].
    rewrite list_lookup_imap in Hj.
    destruct (ms !! j) as [item'|] eqn:Hj'; [|done]. cbn in Hj.
    injection Hj as <-. apply elem_of_replicate in Hin as [-> Hn].
    rewrite Hi in Hj'. injection Hj' as <-. now rewrite Hv in Hn.
  - intros Hlast. apply last_Some_elem_of in Hlast.
    unfold info_positions in Hlast.
    apply list_elem_of_join in Hlast as (l & Hin & Hl).
    apply list_elem_of_lookup in Hl as [j Hj].
    rewrite list_lookup_imap in Hj.
    destruct (ms !! j) as [item'|] eqn:Hj'; [|done]. cbn in Hj.
    injection Hj as <-.
    destruct (is_info (visit item')) eqn:Hinfo; [|now apply elem_of_nil in Hin].
    apply list_elem_of_singleton in Hin as ->.
    rewrite Hi in Hj'. injection Hj' as <-. now rewrite Hv in Hinfo.
Qed.

Lemma prefix_app r s : String.prefix r (r +:+ s) = true.
Proof.
  induction r as [|c r IH]; [now destruct s|].
  change (String c r +:+ s) with (String c (r +:+ s)).
  cbn [String.prefix]. now destruct (ascii_dec c c).
Qed.

Lemma substring_all s : String.substring 0 (String.length s) s = s.
Proof. induction s as [|c s IH]; [done|]. cbn. now rewrite IH. Qed.

Lemma substring_app r s :
  String.substring (String.length r) (String.length s) (r +:+ s) = s.
Proof.
  induction r as [|c r IH]; [apply substring_all|].
  change (String c r +:+ s) with (String c (r +:+ s)). cbn. apply IH.
Qed.

Lemma length_app r s :
  String.length (r +:+ s) = String.length r + String.length s.
Proof.
  induction r as [|c r IH]; [done|].
  change (String c r +:+ s) with (String c (r +:+ s)). cbn. now rewrite IH.
Qed.

Lemma removeprefix_app r s : removeprefix r (r +:+ s) = s.
Proof.
  unfold removeprefix. rewrite prefix_app, length_app.
  replace (String.length r + String.length s - String.length r)
    with (String.length s) by lia.
  apply substring_app.
Qed.

Lemma visit_root_miss root_name v :
  String.prefix root_name (name (final v)) = false →
  visit_root v root_name = mk_verdict (final v) (listed v) (is_info v).
Proof.
  intros Hr. unfold visit_root. rewrite Hr.
  rewrite bool_decide_false; [now rewrite orb_false_r|].
  intros Heq. rewrite Heq in Hr. now rewrite prefix_app in Hr.
Qed.

Lemma visit_root_hit root_name rest v :
  name (final v) = root_name +:+ rest →
  visit_root v root_name
  = mk_verdict (rename rest (final v)) (S (listed v))
      (is_info v || bool_decide (rest = BUILD_INFO_PATH)).
Proof.
  intros Hn. unfold visit_root. rewrite Hn, prefix_app, removeprefix_app.
  f_equal. f_equal. apply bool_decide_ext. split; [|now intros ->].
  apply (inj (String.app root_name)).
Qed.

(** X17: a member named by a root name followed by a text that begins
    with no root name is left with that text as its name and is listed
    once for extraction; it is taken for the build info exactly when
    the text is "resources/build_info.json". *)
Theorem scan_members_strips_root (ms : list TarInfo) (i : nat)
    (item : TarInfo) (root_name rest : string) :
  ms !! i = Some item →
  root_name ∈ root_names →
  name item = root_name +:+ rest →
  outside_roots rest = true →
  visit item
  = mk_verdict (rename rest item) 1 (bool_decide (rest = BUILD_INFO_PATH)) ∧
  (members (scan_members ms) !! i = Some (rename rest item)) ∧
  (i ∈ root_members (scan_members ms)).
Proof.
  intros Hi Hroot Hname Hout.
  assert (visit item
          = mk_verdict (rename rest item) 1
              (bool_decide (rest = BUILD_INFO_PATH))) as Hv.
  { unfold outside_roots, root_names in Hout. cbn [forallb] in Hout.
    apply andb_prop in Hout as [H1 Hout].
    apply andb_prop in Hout as [H2 Hout].
    apply andb_prop in Hout as [H3 _].
    apply negb_true_iff in H1, H2, H3.
    unfold visit, root_names. cbn [foldl].
    unfold root_names in Hroot.
    apply elem_of_cons in Hroot as [->|Hroot];
      [|apply elem_of_cons in Hroot as [->|Hroot];
        [|apply list_elem_of_singleton in Hroot as ->]].
    - rewrite (visit_root_hit "Discord/" rest) by done.
      rewrite (visit_root_miss "DiscordPTB/") by exact H2.
      rewrite (visit_root_miss "DiscordCanary/") by exact H3.
      reflexivity.
    - rewrite (visit_root_miss "Discord/")
        by (cbn [final]; now rewrite Hname).
      rewrite (visit_root_hit "DiscordPTB/" rest) by done.
      rewrite (visit_root_miss "DiscordCanary/") by exact H3.
      reflexivity.
    - rewrite (visit_root_miss "Discord/")
        by (cbn [final]; now rewrite Hname).
      rewrite (visit_root_miss "DiscordPTB/")
        by (cbn [final]; now rewrite Hname).
      now rewrite (visit_root_hit "DiscordCanary/" rest). }
  split; [done|]. rewrite scan_members_visit. cbn. split.
  - rewrite list_lookup_fmap, Hi. cbn. now rewrite Hv.
  - unfold listing. apply list_elem_of_join.
    exists (replicate (listed (visit item)) i). split.
    + rewrite Hv. cbn. apply list_elem_of_singleton. reflexivity.
    + apply list_elem_of_lookup. exists i.
      now rewrite list_lookup_imap, Hi.
Qed.

(** A member under two root names, one inside the other, is stripped
    twice and listed twice. *)
Example scan_members_nested_roots :
  scan_members [mk_TarInfo "Discord/DiscordPTB/x" true "data"]
  = mk_scan [mk_TarInfo "x" true "data"] [0; 0] None.
Proof. reflexivity. Qed.

End scanning.

(** ** The update check and the update, read backwards *)

Section check_sound.

Variable P : Platform.

Import discord_launcher_lib.

(** X18: when [check_for_updates] returns, the installation has a build
    info of the configured channel, the first version returned is the
    one written there, the answer is the comparison of the two versions,
    and the one request made asked, without following the redirect, for
    the download address of that channel. *)
Theorem check_for_updates_sound (config : Config) (w w' : World)
    (o : Ord) (current latest : Version) :
  check_for_updates P config w = (Returns (o, current, latest), w') →
  (∃ info text,
     installed_metadata P (discord_path config) w info ∧
     info !! "releaseChannel" = Some (release_channel config) ∧
     info !! "version" = Some text ∧
     parse_version text = Ok current) ∧
  o = compare_versions current latest ∧
  w' = emit (EHttpGet
               (discord_update_lib.download_url
                  (queried_channel (release_channel config))) false) w.
Proof.
  unfold check_for_updates, get_installed_build_info. intros Hrun.
  apply bind_returns_inv in Hrun as (info & w1 & Hinfo & Hrun).
  pose proof (read_only_returns _ _ _ _
                (read_only_get_installed_build_info P _) Hinfo) as ->.
  destruct (info !! "releaseChannel") as [c|] eqn:Hc;
    [rewrite (getitem_Some _ _ _ Hc) in Hrun
    |unfold getitem in Hrun; now rewrite Hc in Hrun].
  apply bind_returns_inv in Hrun as (c' & w1 & [= <- <-] & Hrun).
  destruct (decide (release_channel config = c)) as [Heq|Hne];
    [|now rewrite bool_decide_true in Hrun by done].
  rewrite bool_decide_false in Hrun by (intros Hne; now apply Hne).
  subst c. unfold discord_update_lib.check_for_updates in Hrun.
  rewrite (bind_returns _ _ _ _ _ Hinfo), (getitem_Some _ _ _ Hc) in Hrun.
  apply bind_returns_inv in Hrun as (c' & w1 & [= <- <-] & Hrun).
  destruct (info !! "version") as [text|] eqn:Ht;
    [rewrite (getitem_Some _ _ _ Ht) in Hrun
    |unfold getitem in Hrun; now rewrite Ht in Hrun].
  cbn [mbind result_bind] in Hrun.
  destruct (parse_version text) as [v|e] eqn:Hv; [|done].
  apply bind_returns_inv in Hrun as (v' & w1 & [= <- <-] & Hrun).
  apply bind_returns_inv in Hrun as (l & w1 & Hlatest & [= <- <- <- <-]).
  pose proof (get_latest_discord_version_trace P
                (queried_channel (release_channel config)) w) as Hw.
  unfold queried_channel in Hw. rewrite Hlatest in Hw. cbn in Hw. subst w1.
  split; [|done]. now exists info, text.
Qed.

(** What [classify] returns: the result of a check that found an older
    installation, or nothing after a channel mismatch that is let
    through. *)
Lemma classify_returns check strict_channel w u w' :
  classify check strict_channel w = (Returns u, w') →
  (∃ current latest,
     check w = (Returns (LESS_THAN, current, latest), w') ∧
     u = Some (LESS_THAN, current, latest)) ∨
  u = None.
Proof.
  unfold classify, try_except. intros Hrun.
  destruct (check w) as [[[[o current] latest]|e|] w1] eqn:Hcheck.
  - erewrite bind_returns in Hrun by exact Hcheck.
    destruct o; cbn beta iota zeta in Hrun.
    + unfold lift, raise, mbind, M_bind in Hrun.
      destruct (format_version (version_list current)) as [?|e1] eqn:H1;
        [|apply format_version_Err in H1 as ->; discriminate].
      destruct (format_version (version_list latest)) as [?|e2] eqn:H2;
        [|apply format_version_Err in H2 as ->]; discriminate.
    + unfold lift, raise, mbind, M_bind in Hrun.
      destruct (format_version (version_list latest)) as [?|e2] eqn:H2;
        [|apply format_version_Err in H2 as ->]; discriminate.
    + injection Hrun as <- <-. left. eauto.
  - erewrite bind_raises in Hrun by exact Hcheck.
    destruct (is_a ReleaseChannelMismatchError e); [|done].
    destruct strict_channel; [done|]. injection Hrun as <- _. now right.
  - now erewrite bind_out_of_fuel in Hrun by exact Hcheck.
Qed.

Lemma apply_update_None_fails fuel config strict_channel w v w' :
  apply_update P fuel config strict_channel None w ≠ (Returns v, w').
Proof.
  unfold apply_update. intros Hrun.
  apply bind_returns_inv in Hrun as (info & w1 & _ & Hrun).
  now apply bind_returns_inv in Hrun as (? & ? & ? & _).
Qed.

Lemma apply_update_returns fuel config strict_channel w o current latest
    v w' :
  apply_update P fuel config strict_channel (Some (o, current, latest)) w
  = (Returns v, w') →
  v = latest.
Proof.
  unfold apply_update. intros Hrun.
  repeat (apply bind_returns_inv in Hrun as (? & ? & _ & Hrun)).
  now injection Hrun as <- _.
Qed.

(** X19: [update_discord] returns a version only after a check that
    found the installation older than the latest version, and the
    version it returns is that latest version; in particular it never
    returns after a channel mismatch. *)
Theorem update_discord_returns_after_older (fuel : nat) (config : Config)
    (strict_channel : bool) (w w' : World) (v : Version) :
  update_discord P fuel config strict_channel w = (Returns v, w') →
  ∃ current w1,
    check_for_updates P config w = (Returns (LESS_THAN, current, v), w1).
Proof.
  unfold update_discord. intros Hrun.
  apply bind_returns_inv in Hrun as (u & w1 & Hclass & Hrun).
  apply classify_returns in Hclass
    as [(current & latest & Hcheck & ->)| ->].
  - apply apply_update_returns in Hrun as ->. eauto.
  - now apply apply_update_None_fails in Hrun.
Qed.

End check_sound.

(** ** Stopping and running *)

Section stopping.

Variable P : Platform.

Import discord_launcher_lib.

Lemma stop_discord_absent fuel blocking w e :
  proxy_PID P w = Err e →
  exn_cls e = DBusError →
  stop_discord P fuel blocking w
  = (Raises not_running_error, emit (EBusCall "PID") w).
Proof.
  intros Hpid Hcls. unfold stop_discord, try_except, proxy_call.
  unfold mbind, M_bind. simpl. rewrite Hpid. simpl.
  unfold is_a. now rewrite bool_decide_true.
Qed.

(** X20: when the PID query fails with [DBusError], [stop_discord]
    raises [DiscordNotRunningError] with its note after that one call:
    no stop request is sent and nothing is probed. *)
Theorem stop_discord_not_running (fuel : nat) (blocking : bool)
    (w : World) (e : exn) :
  proxy_PID P w = Err e →
  exn_cls e = DBusError →
  stop_discord P fuel blocking w
  = (Raises not_running_error, emit (EBusCall "PID") w).
Proof. apply stop_discord_absent. Qed.

(** X21: an exception of the PID query that is no [DBusError], a
    timeout for one, is not taken for "not running": it goes through
    [stop_discord] and through the callers' [except
    DiscordNotRunningError] as it is. *)
Theorem stop_if_running_lets_other_errors_through (fuel : nat) (w : World)
    (e : exn) :
  proxy_PID P w = Err e →
  exn_cls e ≠ DBusError →
  exn_cls e ≠ DiscordNotRunningError →
  stop_if_running P fuel w = (Raises e, emit (EBusCall "PID") w).
Proof.
  intros Hpid Hcls Hcls'.
  unfold stop_if_running, stop_discord, try_except, proxy_call.
  unfold mbind, M_bind. simpl. rewrite Hpid. simpl.
  unfold is_a. now rewrite !bool_decide_false.
Qed.


(** X22: without blocking, [stop_discord] returns right after the stop
    request: it does not probe the process, whatever the fuel. *)
Theorem stop_discord_without_blocking (fuel : nat) (w : World) (pid : Z) :
  proxy_PID P w = Ok pid →
  proxy_Stop P (emit (EBusCall "PID") w) = Ok tt →
  stop_discord P fuel false w
  = (Returns tt, emit (EBusCall "Stop") (emit (EBusCall "PID") w)).
Proof.
  intros Hpid Hstop. unfold stop_discord, try_except, proxy_call.
  unfold mbind, M_bind. simpl. rewrite Hpid. simpl. now rewrite Hstop.
Qed.




End stopping.

Section running.

Variable P : Platform.

Import discord_launcher_lib.

Lemma is_discord_running_yes w :
  proxy_Ping P w = Ok tt →
  is_discord_running P w = (Returns true, emit (EBusCall "Ping") w).
Proof.
  intros Hping. unfold is_discord_running, try_except, proxy_call.
  unfold mbind, M_bind. simpl. now rewrite Hping.
Qed.

Lemma is_discord_running_no w e :
  proxy_Ping P w = Err e →
  exn_cls e = DBusError ∨ exn_cls e = TimeoutError →
  is_discord_running P w = (Returns false, emit (EBusCall "Ping") w).
Proof.
  intros Hping Hcls. unfold is_discord_running, try_except, proxy_call.
  unfold mbind, M_bind. simpl. rewrite Hping. simpl. unfold is_a.
  destruct Hcls as [-> | ->]; now rewrite ?bool_decide_true by done.
Qed.

(** X23: when a launcher answers the ping, [run_discord] raises
    [DiscordRunningError] after that one call: it starts no service and
    no process. *)
Theorem run_discord_refuses_second_instance (config : Config)
    (args : list string) (w : World) :
  proxy_Ping P w = Ok tt →
  run_discord P config args w
  = (Raises (new DiscordRunningError), emit (EBusCall "Ping") w).
Proof.
  intros Hping. unfold run_discord.
  now rewrite (bind_returns _ _ _ _ _ (is_discord_running_yes w Hping)).
Qed.

(** X24: when no launcher answers and the installation has no build
    info, [run_discord] raises [BuildInfoNotFoundError] before it starts
    the service or the process. *)
Theorem run_discord_needs_installation (config : Config)
    (args : list string) (w : World) (e : exn) :
  proxy_Ping P w = Err e →
  exn_cls e = DBusError ∨ exn_cls e = TimeoutError →
  path_exists (joinpath (discord_path config) BUILD_INFO_PATH) (fs w)
  = false →
  ∃ e', run_discord P config args w
        = (Raises e', emit (EBusCall "Ping") w) ∧
        exn_cls e' = BuildInfoNotFoundError.
Proof.
  intros Hping Hcls Hmiss. unfold run_discord.
  rewrite (bind_returns _ _ _ _ _ (is_discord_running_no w e Hping Hcls)).
  destruct (get_installed_build_info_missing P (discord_path config)
              (emit (EBusCall "Ping") w) Hmiss) as (e' & He' & Hcls').
  exists e'. split; [|done]. unfold get_installed_build_info.
  now rewrite (bind_raises _ _ _ _ _ He').
Qed.

(** The world in which [run_discord] has started the service and the
    process. *)
Lemma run_discord_spawns config args w e info text v c :
  proxy_Ping P w = Err e →
  exn_cls e = DBusError ∨ exn_cls e = TimeoutError →
  let w1 := emit (EBusCall "Ping") w in
  installed_metadata P (discord_path config) w1 info →
  info !! "version" = Some text →
  parse_version text = Ok v →
  info !! "releaseChannel" = Some c →
  service_registered P w1 = None →
  let argv := path_str (get_discord_binary config)
              :: match args with [] => launch_args config | _ => args end in
  let w2 := emit EServiceStart w1 in
  let w3 := emit (EPopen argv (working_directory config)) w2 in
  ∀ pid, subprocess_Popen P argv (working_directory config) w2 = Ok pid →
  run_discord P config args w
  = match service_published P pid w3 with
    | Some response =>
        (kill P pid SIGTERM;; raise response) (emit (EServicePublish pid) w3)
    | None =>
        (Returns tt,
         emit EServiceTerminate
           (emit (EWait pid) (emit (EServicePublish pid) w3)))
    end.
Proof.
  intros Hping Hcls w1 Hinfo Ht Hv Hc Hreg argv w2 w3 pid Hpopen.
  unfold run_discord.
  rewrite (bind_returns _ _ _ _ _ (is_discord_running_no w e Hping Hcls)).
  unfold get_installed_build_info. fold w1.
  rewrite (bind_returns _ _ _ _ _ Hinfo).
  rewrite (getitem_Some _ _ _ Ht), (getitem_Some _ _ _ Hc).
  cbn [mbind result_bind]. rewrite Hv.
  unfold popen, mbind, M_bind. simpl. rewrite Hreg.
  fold argv. fold w2. rewrite Hpopen. simpl. fold w3.
  now destruct (service_published P pid w3).
Qed.

(** X25: when no launcher answers, the installation has a readable
    build info and the service and the process start, [run_discord]
    starts the binary of the configured channel under the installation
    path, with the caller's arguments if there are any and the
    configured ones otherwise, in the configured working directory; it
    publishes the pid of that process, waits for it and ends the
    service. *)
Theorem run_discord_runs (config : Config) (args : list string)
    (w : World) (e : exn) (info : gmap string string) (text c : string)
    (v : Version) (pid : Z) :
  proxy_Ping P w = Err e →
  exn_cls e = DBusError ∨ exn_cls e = TimeoutError →
  let w1 := emit (EBusCall "Ping") w in
  let argv := path_str (get_discord_binary config)
              :: match args with [] => launch_args config | _ => args end in
  let w3 := emit (EPopen argv (working_directory config))
              (emit EServiceStart w1) in
  installed_metadata P (discord_path config) w1 info →
  info !! "version" = Some text →
  parse_version text = Ok v →
  info !! "releaseChannel" = Some c →
  service_registered P w1 = None →
  subprocess_Popen P argv (working_directory config)
    (emit EServiceStart w1) = Ok pid →
  service_published P pid w3 = None →
  run_discord P config args w
  = (Returns tt,
     emit EServiceTerminate
       (emit (EWait pid) (emit (EServicePublish pid) w3))).
Proof.
  intros Hping Hcls w1 argv w3 Hinfo Ht Hv Hc Hreg Hpopen Hpub.
  rewrite (run_discord_spawns config args w e info text v c Hping Hcls
             Hinfo Ht Hv Hc Hreg pid Hpopen).
  fold w1 argv w3. now rewrite Hpub.
Qed.

(** X26: when the service cannot publish the pid of the process just
    started, [run_discord] sends SIGTERM to that process and raises the
    error of the service: no child is left behind unannounced. *)
Theorem run_discord_kills_unpublished_child (config : Config)
    (args : list string) (w : World) (e : exn)
    (info : gmap string string) (text c : string) (v : Version) (pid : Z)
    (response : exn) :
  proxy_Ping P w = Err e →
  exn_cls e = DBusError ∨ exn_cls e = TimeoutError →
  let w1 := emit (EBusCall "Ping") w in
  let argv := path_str (get_discord_binary config)
              :: match args with [] => launch_args config | _ => args end in
  let w3 := emit (EPopen argv (working_directory config))
              (emit EServiceStart w1) in
  let w4 := emit (EServicePublish pid) w3 in
  installed_metadata P (discord_path config) w1 info →
  info !! "version" = Some text →
  parse_version text = Ok v →
  info !! "releaseChannel" = Some c →
  service_registered P w1 = None →
  subprocess_Popen P argv (working_directory config)
    (emit EServiceStart w1) = Ok pid →
  service_published P pid w3 = Some response →
  os_kill P pid SIGTERM w4 = Ok tt →
  run_discord P config args w
  = (Raises response, emit (EKill pid SIGTERM) w4).
Proof.
  intros Hping Hcls w1 argv w3 w4 Hinfo Ht Hv Hc Hreg Hpopen Hpub Hkill.
  rewrite (run_discord_spawns config args w e info text v c Hping Hcls
             Hinfo Ht Hv Hc Hreg pid Hpopen).
  fold w1 argv w3. rewrite Hpub. fold w4.
  unfold kill, mbind, M_bind. simpl. now rewrite Hkill.
Qed.

End running.

(** ** [uninstall_discord] *)

Section uninstalling.

Variable P : Platform.

Import discord_launcher_lib.






End uninstalling.

(** ** Closed instances of the further properties *)

Section more_instances.

Import Demo Demo2.

Lemma compare_versions_transitive_witness :
  compare_versions (1, 2, 3)%N (1, 3, 0)%N = LESS_THAN.
Proof.
  apply (compare_versions_transitive _ (1, 2, 4)%N); reflexivity.
Defined.

Lemma get_latest_discord_version_reads_location_witness :
  discord_update_lib.get_latest_discord_version (idle "1.2.4") "stable" fresh
  = (Returns (1, 2, 4)%N,
     emit (EHttpGet (discord_update_lib.download_url "stable") false) fresh).
Proof.
  apply (get_latest_discord_version_reads_location (idle "1.2.4") "stable"
           fresh (mk_Response {[ "Location" := location "1.2.4" ]} EmptyString)
           "https://stable.dl2.discordapp.net/apps/linux"
           "discord-1.2.4.tar.gz" 1 2 4); try reflexivity.
  repeat split; apply Nat.leb_le; vm_compute; reflexivity.
Defined.



Lemma replace_installation_over_file_witness :
  discord_update_lib.replace_installation (idle "1.2.4") 2 destination
    (discord_update_lib.scan_members (archive_members "Discord/" "1.2.4" "stable"))
    file_in_the_way
  = (Raises (os_error FileExistsError destination), file_in_the_way).
Proof.
  apply replace_installation_over_file with "not a directory". reflexivity.
Defined.

Lemma replace_installation_without_parent_witness :
  discord_update_lib.replace_installation (idle "1.2.4") 2 destination
    (discord_update_lib.scan_members (archive_members "Discord/" "1.2.4" "stable"))
    bare
  = (Raises (os_error FileNotFoundError destination), bare).
Proof. apply replace_installation_without_parent; reflexivity. Defined.

Lemma archive_metadata_canary :
  archive_metadata (idle "1.2.4") "canary-1.2.4.tar.gz"
    (Some {[ "version" := "1.2.4"; "releaseChannel" := "canary" ]}).
Proof.
  eexists. split; [reflexivity|].
  assert (discord_update_lib.build_info
            (discord_update_lib.scan_members
               (archive_members "DiscordCanary/" "1.2.4" "canary")) = Some 2)
    as Hbi by (vm_compute; reflexivity).
  cbn zeta. rewrite Hbi. eexists _, _.
  split; [vm_compute; reflexivity|]. split; reflexivity.
Qed.

Lemma archive_metadata_stable (P : Platform) v :
  tarfile_open P "stable-1.2.4.tar.gz"
  = Ok (archive_members "Discord/" "1.2.4" "stable") →
  json_loads P (build_info_doc "1.2.4" "stable") = Ok v →
  archive_metadata P "stable-1.2.4.tar.gz" (Some v).
Proof.
  intros Hopen Hloads. eexists. split; [exact Hopen|].
  assert (discord_update_lib.build_info
            (discord_update_lib.scan_members
               (archive_members "Discord/" "1.2.4" "stable")) = Some 2)
    as Hbi by (vm_compute; reflexivity).
  cbn zeta. rewrite Hbi. eexists _, _.
  split; [vm_compute; reflexivity|]. split; [exact Hloads|reflexivity].
Qed.

Lemma install_discord_accepts_channel_swap_witness :
  discord_update_lib.install_discord (idle "1.2.4") 2 destination
    "canary-1.2.4.tar.gz" false false (installed "1.2.3" "stable")
  = discord_update_lib.replace_installation (idle "1.2.4") 2 destination
      (discord_update_lib.scan_members
         (archive_members "DiscordCanary/" "1.2.4" "canary"))
      (installed "1.2.3" "stable").
Proof.
  apply (install_discord_accepts_channel_swap (idle "1.2.4") 2 destination
           "canary-1.2.4.tar.gz" _ false (installed "1.2.3" "stable")
           {[ "version" := "1.2.4"; "releaseChannel" := "canary" ]}
           {[ "version" := "1.2.3"; "releaseChannel" := "stable" ]}
           "1.2.4" "1.2.3" "canary" "stable");
    try reflexivity; [apply archive_metadata_canary | discriminate].
Defined.

Lemma install_discord_accepts_newer_or_forced_witness :
  discord_update_lib.install_discord (idle "1.2.4") 2 destination
    "stable-1.2.4.tar.gz" false true (installed "1.2.3" "stable")
  = discord_update_lib.replace_installation (idle "1.2.4") 2 destination
      (discord_update_lib.scan_members
         (archive_members "Discord/" "1.2.4" "stable"))
      (installed "1.2.3" "stable").
Proof.
  apply (install_discord_accepts_newer_or_forced (idle "1.2.4") 2
           destination "stable-1.2.4.tar.gz" _ false true
           (installed "1.2.3" "stable")
           {[ "version" := "1.2.4"; "releaseChannel" := "stable" ]}
           {[ "version" := "1.2.3"; "releaseChannel" := "stable" ]}
           "1.2.4" "1.2.3" "stable" (1, 2, 4)%N (1, 2, 3)%N);
    try reflexivity.
  - apply archive_metadata_stable; reflexivity.
  - right. simpl. lia.
Defined.

Lemma install_discord_accepts_missing_installation_witness :
  discord_update_lib.install_discord (idle "1.2.4") 2 destination
    "stable-1.2.4.tar.gz" true false fresh
  = discord_update_lib.replace_installation (idle "1.2.4") 2 destination
      (discord_update_lib.scan_members
         (archive_members "Discord/" "1.2.4" "stable"))
      fresh.
Proof.
  apply (install_discord_accepts_missing_installation (idle "1.2.4") 2
           destination "stable-1.2.4.tar.gz" _ fresh
           (Some {[ "version" := "1.2.4"; "releaseChannel" := "stable" ]}));
    try reflexivity.
  - apply archive_metadata_stable; reflexivity.
  - intros archive [= <-]. split; now eexists.
Defined.

Lemma install_discord_unparsable_installed_version_witness :
  discord_update_lib.install_discord lenient 2 destination
    "stable-1.2.4.tar.gz" true false (installed "latest" "stable")
  = (Raises (parsing_error "latest"), installed "latest" "stable").
Proof.
  apply (install_discord_unparsable_installed_version lenient 2 destination
           "stable-1.2.4.tar.gz" (archive_members "Discord/" "1.2.4" "stable")
           true false (installed "latest" "stable")
           {[ "version" := "1.2.4"; "releaseChannel" := "stable" ]}
           {[ "version" := "latest"; "releaseChannel" := "stable" ]}
           "1.2.4" "latest" "stable" (1, 2, 4)%N);
    try reflexivity.
  apply archive_metadata_stable; reflexivity.
Defined.

Lemma scan_members_skips_outside_roots_witness :
  discord_update_lib.members
    (discord_update_lib.scan_members
       [mk_TarInfo "README" true "text";
        mk_TarInfo "Discord/Discord" true "ELF"]) !! 0
  = Some (mk_TarInfo "README" true "text").
Proof.
  apply (scan_members_skips_outside_roots
           [mk_TarInfo "README" true "text";
            mk_TarInfo "Discord/Discord" true "ELF"] 0
           (mk_TarInfo "README" true "text")); reflexivity.
Defined.

Lemma scan_members_strips_root_witness :
  visit (mk_TarInfo "DiscordPTB/resources/build_info.json" true "{}")
  = mk_verdict (mk_TarInfo "resources/build_info.json" true "{}") 1 true.
Proof.
  apply (scan_members_strips_root
           [mk_TarInfo "DiscordPTB/resources/build_info.json" true "{}"] 0
           (mk_TarInfo "DiscordPTB/resources/build_info.json" true "{}")
           "DiscordPTB/" "resources/build_info.json"); try reflexivity.
  unfold discord_update_lib.root_names.
  apply elem_of_cons. right. apply elem_of_cons. now left.
Defined.

Lemma check_for_updates_sound_witness :
  LESS_THAN = compare_versions (1, 2, 3)%N (1, 2, 4)%N.
Proof.
  apply (check_for_updates_sound (idle "1.2.4") (config "stable")
           (installed "1.2.3" "stable")
           (emit (EHttpGet (discord_update_lib.download_url "stable") false)
              (installed "1.2.3" "stable"))).
  vm_compute. reflexivity.
Defined.

Lemma update_discord_returns_after_older_witness :
  ∃ current w1,
    discord_launcher_lib.check_for_updates (idle "1.2.4") (config "stable")
      (installed "1.2.3" "stable")
    = (Returns (LESS_THAN, current, (1, 2, 4)%N), w1).
Proof.
  eapply (update_discord_returns_after_older (idle "1.2.4") 5
            (config "stable") true).
  vm_compute. reflexivity.
Defined.

Lemma stop_discord_not_running_witness :
  discord_launcher_lib.stop_discord (idle "1.2.4") 5 true fresh
  = (Raises not_running_error, emit (EBusCall "PID") fresh).
Proof.
  apply stop_discord_not_running with (mk_exn DBusError [] []); reflexivity.
Defined.

Lemma stop_if_running_lets_other_errors_through_witness :
  discord_launcher_lib.stop_if_running slow_bus 5 fresh
  = (Raises timeout_error, emit (EBusCall "PID") fresh).
Proof.
  apply stop_if_running_lets_other_errors_through;
    [reflexivity | discriminate | discriminate].
Defined.

Lemma stop_discord_without_blocking_witness :
  discord_launcher_lib.stop_discord (platform "1.2.4" (Some 7%Z) None) 0
    false fresh
  = (Returns tt, emit (EBusCall "Stop") (emit (EBusCall "PID") fresh)).
Proof. apply stop_discord_without_blocking with 7%Z; reflexivity. Defined.

Lemma run_discord_refuses_second_instance_witness :
  discord_launcher_lib.run_discord (platform "1.2.4" (Some 7%Z) None)
    (config "stable") [] (installed "1.2.4" "stable")
  = (Raises (new DiscordRunningError),
     emit (EBusCall "Ping") (installed "1.2.4" "stable")).
Proof. apply run_discord_refuses_second_instance. reflexivity. Defined.

Lemma run_discord_needs_installation_witness :
  ∃ e', discord_launcher_lib.run_discord (idle "1.2.4") (config "stable") []
          fresh
        = (Raises e', emit (EBusCall "Ping") fresh) ∧
        exn_cls e' = BuildInfoNotFoundError.
Proof.
  apply run_discord_needs_installation with (mk_exn DBusError [] []);
    [reflexivity | now left | reflexivity].
Defined.

Lemma run_discord_runs_witness :
  discord_launcher_lib.run_discord (idle "1.2.4") (config "canary")
    ["--start-minimized"] (installed "1.2.4" "canary")
  = (Returns tt,
     mk_World (fs (installed "1.2.4" "canary"))
       [EBusCall "Ping"; EServiceStart;
        EPopen ["/home/june/Discord/DiscordCanary"; "--start-minimized"]
          "/usr/bin";
        EServicePublish 1000; EWait 1000; EServiceTerminate]).
Proof.
  apply (run_discord_runs (idle "1.2.4") (config "canary")
           ["--start-minimized"] (installed "1.2.4" "canary")
           (mk_exn DBusError [] [])
           {[ "version" := "1.2.4"; "releaseChannel" := "canary" ]}
           "1.2.4" "canary" (1, 2, 4)%N 1000);
    first [reflexivity | now left | (vm_compute; reflexivity)].
Defined.

Lemma run_discord_kills_unpublished_child_witness :
  discord_launcher_lib.run_discord taken_name (config "stable") []
    (installed "1.2.4" "stable")
  = (Raises name_taken,
     mk_World (fs (installed "1.2.4" "stable"))
       [EBusCall "Ping"; EServiceStart;
        EPopen ["/home/june/Discord/Discord"] "/usr/bin";
        EServicePublish 1000; EKill 1000 15]).
Proof.
  apply (run_discord_kills_unpublished_child taken_name (config "stable")
           [] (installed "1.2.4" "stable") (mk_exn DBusError [] [])
           {[ "version" := "1.2.4"; "releaseChannel" := "stable" ]}
           "1.2.4" "stable" (1, 2, 4)%N 1000 name_taken);
    first [reflexivity | now left | (vm_compute; reflexivity)].
Defined.






End more_instances.
